(** * PublishingTrends: the ingestion pipeline

    A shallow embedding of [ingestion/scraper.py] and [ingestion/utils.py]:
    the request planner, the page and cover fetchers, the result
    serializer, the two-pass driver at the bottom of the script, the merge
    of the page files, and the discipline of the shared semaphore.

    Conventions of the model
    - a Python exception is a value of [exn]; a computation that may raise
      has type [result A];
    - file writes are collected in order (type [io]), also up to the point
      where an exception is raised; the store they leave is [apply_writes];
    - what the network answers to a request and what the disk does with a
      write are inputs of the model ([world]), one per call of
      [asyncio.run];
    - parsed JSON is the tree [json]; a Python [dict] is its item list in
      insertion order (keys are unique in a dict). *)

From Stdlib Require Import ZArith QArith Qround Ascii String.
From stdpp Require Import base tactics option list strings pretty gmap sorting.

Set Warnings "-register-all".

Local Open Scope string_scope.
Local Open Scope list_scope.
Local Open Scope Z_scope.

(** ** Python values and exceptions *)

Inductive json : Type :=
| JNull
| JBool (b : bool)
| JInt (z : Z)
| JReal (q : Q)
| JStr (s : string)
| JArr (items : list json)
| JObj (items : list (string * json)).

(** Of the exceptions of [aiohttp], [ClientConnectorError] stands for that
    class and its subclasses, which the handlers of the scraper catch;
    [ClientOSError] for a failure of a connection in use, which is no
    [ClientConnectorError]. *)
Inductive exn : Type :=
| KeyError (key : string)
| TypeError
| AttributeError
| IndexError
| ValueError
| NameError (name : string)
| ZeroDivisionError
| OSError
| JSONDecodeError
| ContentTypeError
| ClientConnectorError
| ClientOSError
| InvalidURL
| OverflowError.

Inductive result (A : Type) : Type :=
| Ok (a : A)
| Raise (e : exn).
Arguments Ok {A} a.
Arguments Raise {A} e.

#[global] Instance result_ret : MRet result := λ A a, Ok a.
#[global] Instance result_bind : MBind result := λ A B f m,
  match m with
  | Ok a => f a
  | Raise e => Raise e
  end.
#[global] Instance result_fmap : FMap result := λ A B f m,
  match m with
  | Ok a => Ok (f a)
  | Raise e => Raise e
  end.

Definition is_ok {A} (m : result A) : bool :=
  match m with Ok _ => true | Raise _ => false end.

(** [d[key]] *)
Fixpoint assoc (key : string) (items : list (string * json)) : option json :=
  match items with
  | [] => None
  | (k, v) :: rest => if String.eqb k key then Some v else assoc key rest
  end.

Definition subscript (d : json) (key : string) : result json :=
  match d with
  | JObj items =>
      match assoc key items with
      | Some v => Ok v
      | None => Raise (KeyError key)
      end
  | _ => Raise TypeError
  end.

(** [d.get(key)] *)
Definition dict_get (d : json) (key : string) : result json :=
  match d with
  | JObj items => Ok (default JNull (assoc key items))
  | _ => Raise AttributeError
  end.

(** [for x in v]: the elements a [for] loop visits. *)
Definition py_iter (v : json) : result (list json) :=
  match v with
  | JArr items => Ok items
  | JObj items => Ok (JStr <$> items.*1)
  | JStr s => Ok ((λ c, JStr (String c EmptyString)) <$> String.list_ascii_of_string s)
  | _ => Raise TypeError
  end.

(** [str(v)], as an f-string renders a value. Strings inside a list or a
    dict are shown between single quotes; the escapes of [repr] and the
    shortest-digits form of a float are not modelled (a float is shown as
    the quotient it denotes). *)
Definition join (sep : string) (parts : list string) : string :=
  match parts with
  | [] => ""
  | p :: ps => fold_left (λ acc x, acc +:+ sep +:+ x) ps p
  end.

Fixpoint py_repr (v : json) : string :=
  match v with
  | JNull => "None"
  | JBool true => "True"
  | JBool false => "False"
  | JInt z => pretty z
  | JReal q => pretty (Qnum q) +:+ "/" +:+ pretty (Zpos (Qden q))
  | JStr s => "'" +:+ s +:+ "'"
  | JArr items => "[" +:+ join ", " (map py_repr items) +:+ "]"
  | JObj items =>
      "{" +:+ join ", " (map (λ kv, "'" +:+ kv.1 +:+ "': " +:+ py_repr kv.2) items) +:+ "}"
  end.

Definition py_str (v : json) : string :=
  match v with
  | JStr s => s
  | _ => py_repr v
  end.

(** ** ScraperParams *)

Record ScraperParams : Type := {
  start_date : string;
  end_date : string;
  entries_per_page : Z;
  json_dir : string;
  cover_img_dir : string
}.

Definition img_size : string := "500w".

(** A search URL is kept as its list of query parameters, in the order
    [urlencode] receives them: [parse_qs] undoes [urlencode], so the text
    between the two is not modelled. *)
Definition search_url : Type := list (string * string).

Definition build_book_page_url (self : ScraperParams) (page_num : Z) : search_url :=
  [("q", "*"); ("type", "book"); ("rows", pretty (entries_per_page self));
   ("page", pretty page_num);
   ("issued_after", start_date self); ("issued_before", end_date self);
   ("publishers", "Apress"); ("publishers", "O'Reilly Media, Inc.");
   ("publishers", "Manning Publications"); ("publishers", "Packt Publishing");
   ("publishers", "Pearson"); ("publishers", "Addison-Wesley Professional");
   ("publishers", "Microsoft Press"); ("publishers", "Pragmatic Bookshelf");
   ("publishers", "No Starch Press"); ("order_by", "created_at")].

Definition build_cover_img_url (base_url : json) : string :=
  py_str base_url +:+ img_size.

(** [parse_qs] drops the parameters whose value is blank; [params['page'][0]]
    is the first value left under the key. *)
Fixpoint page_num_from_url (url : search_url) : result string :=
  match url with
  | [] => Raise (KeyError "page")
  | (k, v) :: rest =>
      if String.eqb k "page" && negb (String.eqb v "")
      then Ok v
      else page_num_from_url rest
  end.

(** ** The world outside: network and disk *)

Record response : Type := {
  status : Z;
  (** [await response.json()] *)
  body_json : result json;
  (** [await response.read()] *)
  body_bytes : result string
}.

(** What [session.get(url)] does: raise, or hand back a response. A
    connection that cannot be established raises [ClientConnectorError]. *)
Inductive get_outcome : Type :=
| GetRaises (e : exn)
| Responds (r : response).

(** What the disk does when a file is opened for writing and filled. *)
Inductive disk_outcome : Type :=
| Accepts
| OpenFails
| WriteFails (written : nat).

Record world : Type := {
  search_get : search_url → get_outcome;
  cover_get : string → get_outcome;
  disk : string → string → disk_outcome
}.

(** What a file holds. [Dumped v] is the text [json.dump] writes for [v];
    [Torn v n] is the first [n] characters of that text, left behind by a
    write that failed; [Empty] is a file opened for writing and not written
    to. *)
Inductive content : Type :=
| Empty
| Raw (bytes : string)
| Dumped (v : json)
| Torn (v : json) (written : nat).

(** [Path(dir, name)] is kept as the pair: the names the scraper builds hold
    no separator. *)
Inductive write : Type :=
| Store (dir name : string) (c : content).

Record io (A : Type) : Type := IO {
  writes : list write;
  outcome : result A
}.
Arguments IO {A} writes outcome.
Arguments writes {A} _.
Arguments outcome {A} _.

#[global] Instance io_ret : MRet io := λ A a, IO [] (Ok a).
#[global] Instance io_bind : MBind io := λ A B f m,
  match outcome m with
  | Ok a => IO (writes m ++ writes (f a)) (outcome (f a))
  | Raise e => IO (writes m) (Raise e)
  end.

Definition lift {A} (r : result A) : io A := IO [] r.
Definition emit (w : write) : io unit := IO [w] (Ok ()).
Definition raise {A} (e : exn) : io A := IO [] (Raise e).

(** [try: body except E: handler]: the writes of the body stay done. *)
Definition try_except {A} (body : io A) (handler : exn → option (io A)) : io A :=
  match outcome body with
  | Ok _ => body
  | Raise e =>
      match handler e with
      | Some h => IO (writes body ++ writes h) (outcome h)
      | None => body
      end
  end.

Abbreviation store := (gmap (string * string) content).

Definition apply_write (fs : store) (w : write) : store :=
  match w with
  | Store dir name c => <[(dir, name) := c]> fs
  end.

Definition apply_writes (ws : list write) (fs : store) : store :=
  fold_left apply_write ws fs.

(** [await session.get(url)] followed by the body of its [async with]. *)
Definition with_get {A} (o : get_outcome) (body : response → io A) : io A :=
  match o with
  | GetRaises e => raise e
  | Responds r => body r
  end.

(** [with open(path, 'w') as f: f.write(text)] where the complete text is
    [whole] and what a failed write leaves is [torn]. *)
Definition write_file (w : world) (dir name : string)
    (whole : content) (torn : nat → content) : io unit :=
  match disk w dir name with
  | Accepts => emit (Store dir name whole)
  | OpenFails => raise OSError
  | WriteFails n => _ ← emit (Store dir name (torn n)); raise OSError
  end.

Definition open_w (w : world) (dir name : string) : io disk_outcome :=
  match disk w dir name with
  | OpenFails => raise OSError
  | d => _ ← emit (Store dir name Empty); mret d
  end.

Definition fill (d : disk_outcome) (dir name : string)
    (whole : content) (torn : nat → content) : io unit :=
  match d with
  | WriteFails n => _ ← emit (Store dir name (torn n)); raise OSError
  | _ => emit (Store dir name whole)
  end.

(** ** Strings: [str.split] and negative indices *)

Fixpoint split_go (sep : ascii) (cur : string) (s : string) : list string :=
  match s with
  | EmptyString => [String.rev cur]
  | String c rest =>
      if Ascii.eqb c sep
      then String.rev cur :: split_go sep EmptyString rest
      else split_go sep (String c cur) rest
  end.

(** [s.split(sep)] for a one-character separator. *)
Definition split (sep : ascii) (s : string) : list string :=
  split_go sep EmptyString s.

(** [l[-k]] for [k ≥ 1]. *)
Definition index_from_end {A} (l : list A) (k : nat) : result A :=
  match rev l !! Nat.pred k with
  | Some x => Ok x
  | None => Raise IndexError
  end.

(** ** retrieve_cover *)

Definition on_connector_error {A} (fallback : A) (e : exn) : option (io A) :=
  match e with
  | ClientConnectorError => Some (mret fallback)
  | _ => None
  end.

Definition retrieve_cover (url : string) (params : ScraperParams) (w : world) : io bool :=
  try_except
    (with_get (cover_get w url) (λ response,
       if status response =? 200 then
         isbn ← lift (index_from_end (split "/" url) 2);
         let name := isbn +:+ ".jpeg" in
         d ← open_w w (cover_img_dir params) name;
         bytes ← lift (body_bytes response);
         _ ← fill d (cover_img_dir params) name
               (Raw bytes) (λ n, Raw (String.substring 0 n bytes));
         mret true
       else mret false))
    (on_connector_error false).

(** ** retrieve_book_page *)

Definition base_fields : list string :=
  ["product_id"; "title"; "authors"; "description"; "language"; "categories";
   "url"; "cover_image"].

Definition custom_attr_fields : list string :=
  ["publication_date"; "publishers"; "page_count"; "average_rating"].

(** [data[key] = v] on the item list of a dict. *)
Fixpoint dict_set (items : list (string * json)) (key : string) (v : json)
    : list (string * json) :=
  match items with
  | [] => [(key, v)]
  | (k, x) :: rest =>
      if String.eqb k key then (k, v) :: rest else (k, x) :: dict_set rest key v
  end.

(** [{field: prod.get(field) for field in fields}], started from [data]. *)
Fixpoint get_fields (prod : json) (fields : list string)
    (data : list (string * json)) : result (list (string * json)) :=
  match fields with
  | [] => Ok data
  | field :: rest =>
      v ← dict_get prod field;
      get_fields prod rest (dict_set data field v)
  end.

(** [for field in fields: data[field] = prod['custom_attributes'][field]] *)
Fixpoint index_fields (prod : json) (fields : list string)
    (data : list (string * json)) : result (list (string * json)) :=
  match fields with
  | [] => Ok data
  | field :: rest =>
      attrs ← subscript prod "custom_attributes";
      v ← subscript attrs field;
      index_fields prod rest (dict_set data field v)
  end.

(** Lines 86-92: the BookRecord of one product. *)
Definition extract_data (prod : json) : result json :=
  data ← get_fields prod base_fields [];
  data ← index_fields prod custom_attr_fields data;
  Ok (JObj data).

(** The loop over the products. [elems] is the list the source appends to;
    its value when the loop stops is returned next to the outcome, since the
    handler of the enclosing [try] returns it. *)
Fixpoint page_loop (products : list json) (params : ScraperParams) (w : world)
    (elems : list (json * Z)) : list (json * Z) * io unit :=
  match products with
  | [] => (elems, mret ())
  | prod :: rest =>
      match extract_data prod with
      | Raise e => (elems, raise e)
      | Ok data =>
          match dict_get data "cover_image" with
          | Raise e => (elems, raise e)
          | Ok base_url =>
              let cover := retrieve_cover (build_cover_img_url base_url) params w in
              match outcome cover with
              | Raise e => (elems, IO (writes cover) (Raise e))
              | Ok cover_status =>
                  let '(elems', tail) :=
                    page_loop rest params w (elems ++ [(data, Z.b2z cover_status)]) in
                  (elems', IO (writes cover ++ writes tail) (outcome tail))
              end
          end
      end
  end.

Definition page_result : Type := list (json * Z) * search_url * bool.

Definition retrieve_book_page (url : search_url) (params : ScraperParams) (w : world)
    : io page_result :=
  match search_get w url with
  | GetRaises ClientConnectorError => mret ([], url, false)
  | GetRaises e => raise e
  | Responds response =>
      match (content ← body_json response;
             data ← subscript content "data";
             products ← subscript data "products";
             py_iter products) with
      | Raise ClientConnectorError => mret ([], url, false)
      | Raise e => raise e
      | Ok products =>
          let '(elems, loop) := page_loop products params w [] in
          match outcome loop with
          | Ok _ => IO (writes loop) (Ok (elems, url, true))
          | Raise ClientConnectorError => IO (writes loop) (Ok (elems, url, false))
          | Raise e => IO (writes loop) (Raise e)
          end
      end
  end.

(** ** main: the batch *)

(** [main] as a function of its URLs, the pages taken one after another:
    what [tqdm.gather] hands back, in the order of [urls], whenever the
    batch hands back results. The tasks, the semaphore and the schedule
    are in module [Batch] below; the batch need not come to an end when it
    has as many pages as the semaphore has slots. When a page raises, [main]
    raises what the first such page of the list raises and shows the writes
    of the pages before it; in a run, the page that raises first ends the
    batch, and which writes of the other pages were done by then depends on
    the schedule. *)
Fixpoint main (urls : list search_url) (params : ScraperParams) (w : world)
    : io (list page_result) :=
  match urls with
  | [] => mret []
  | url :: rest =>
      r ← retrieve_book_page url params w;
      rs ← main rest params w;
      mret (r :: rs)
  end.

(** ** serialize_results *)

(** [sum(xs)] *)
Definition py_sum (xs : list Z) : Z := foldr Z.add 0 xs.

Fixpoint serialize_results (results : list page_result) (params : ScraperParams)
    (w : world) (book_count cover_count : Z) : io (Z * Z) :=
  match results with
  | [] => mret (book_count, cover_count)
  | (res, url, _) :: rest =>
      page_num ← lift (page_num_from_url url);
      let name := page_num +:+ ".json" in
      let serialize_data := res.*1 in
      d ← open_w w (json_dir params) name;
      _ ← fill d (json_dir params) name
            (Dumped (JArr serialize_data)) (Torn (JArr serialize_data));
      serialize_results rest params w
        (book_count + Z.of_nat (length serialize_data))
        (cover_count + py_sum res.*2)
  end.

(** ** plan *)

(** A Python [float] is a binary64 number, kept here as the rational it
    denotes. [nearest_float n d] is the float nearest to [n / d] for positive
    [n] and [d], as mantissa and exponent: 53 bits of mantissa, exponents
    from -1074, a tie going to the even mantissa; there is none when the
    quotient rounds to [2^1024] or more. *)
Definition round_half_even (n d : Z) : Z :=
  let f := n / d in
  let r := n mod d in
  if 2 * r <? d then f
  else if d <? 2 * r then f + 1
  else if Z.even f then f else f + 1.

(** [n / d] divided by [2^e], as a fraction. *)
Definition scaled (n d e : Z) : Z * Z :=
  (n * 2 ^ Z.max 0 (- e), d * 2 ^ Z.max 0 e).

(** The [k] with [2^k ≤ n / d < 2^(k+1)]. *)
Definition binade (n d : Z) : Z :=
  let k := Z.log2 n - Z.log2 d in
  let '(n', d') := scaled n d k in
  if n' <? d' then k - 1 else k.

Definition nearest_float (n d : Z) : option (Z * Z) :=
  let e := Z.max (binade n d - 52) (-1074) in
  let '(n', d') := scaled n d e in
  let m := round_half_even n' d' in
  if 1024 <=? Z.log2 m + e then None else Some (m, e).

Definition float_value (m e : Z) : Q :=
  if 0 <=? e then inject_Z (m * 2 ^ e) else (m # Z.to_pos (2 ^ (- e)))%Q.

(** The float nearest to [q]; [OverflowError] stands for a result out of
    the range of floats. *)
Definition binary64 (q : Q) : result Q :=
  match Qnum q with
  | 0 => Ok 0%Q
  | Zpos n =>
      match nearest_float (Zpos n) (Zpos (Qden q)) with
      | Some (m, e) => Ok (float_value m e)
      | None => Raise OverflowError
      end
  | Zneg n =>
      match nearest_float (Zpos n) (Zpos (Qden q)) with
      | Some (m, e) => Ok (float_value (- m) e)
      | None => Raise OverflowError
      end
  end.

(** [n / d] for a Python number [n] and an [int] [d]. The quotient of two
    ints is the float nearest to the exact quotient, [OverflowError] when
    there is none. A float [n] is divided by the float nearest to [d]; where
    Python gets an infinite float there, [math.ceil] raises [OverflowError]
    on it next: the model raises it here. *)
Definition true_div (n : json) (d : Z) : result Q :=
  match n with
  | JInt z =>
      if d =? 0 then Raise ZeroDivisionError else binary64 (inject_Z z / inject_Z d)
  | JBool b =>
      if d =? 0 then Raise ZeroDivisionError
      else binary64 (inject_Z (Z.b2z b) / inject_Z d)
  | JReal q =>
      if d =? 0 then Raise ZeroDivisionError
      else y ← binary64 (inject_Z d); x ← binary64 q; binary64 (x / y)
  | _ => Raise TypeError
  end.

(** [math.ceil(x)] for a float [x]. *)
Definition math_ceil (q : Q) : Z := Qceiling q.

(** The name [entries_per_page] in the body of [plan] is not a parameter
    and not a field of [params]: it is looked up among the globals of the
    module, here [globals_entries_per_page] ([None] when the name is not
    bound). The function returns [None] after a connection error. *)
Definition plan (globals_entries_per_page : option Z) (params : ScraperParams)
    (w : world) : io (option (json * Z)) :=
  try_except
    (let url := build_book_page_url params 1 in
     with_get (search_get w url) (λ response,
       content ← lift (body_json response);
       data ← lift (subscript content "data");
       num_books ← lift (subscript data "total");
       per_page ← lift (match globals_entries_per_page with
                        | Some n => Ok n
                        | None => Raise (NameError "entries_per_page")
                        end);
       q ← lift (true_div num_books per_page);
       mret (Some (num_books, math_ceil q))))
    (on_connector_error None).

(** ** The script: two runs *)

Definition is_ok_idx (res : page_result) : bool := res.2.
Definition url_idx (res : page_result) : search_url := res.1.2.

(** Lines 173-178: the second run, over the pages the first one missed. *)
Definition second_run (missing_pages : list search_url) (sp : ScraperParams)
    (w : world) (b_count c_count : Z) : io (Z * Z * list search_url) :=
  results ← main missing_pages sp w;
  let retrieved_pages := filter (λ res, is_ok_idx res = true) results in
  let missing_pages := url_idx <$> filter (λ res, is_ok_idx res = false) results in
  '(b_count, c_count) ← serialize_results retrieved_pages sp w b_count c_count;
  mret (b_count, c_count, missing_pages).

(** Lines 160-178: the first run over all planned pages, then the second
    one if a page is missing. Returns the two counts and the pages still
    missing. *)
Definition two_runs (planned_num_pages : Z) (sp : ScraperParams)
    (w1 w2 : world) : io (Z * Z * list search_url) :=
  let urls := build_book_page_url sp <$> seqZ 1 planned_num_pages in
  results ← main urls sp w1;
  let missing_pages := url_idx <$> filter (λ res, is_ok_idx res = false) results in
  '(b_count, c_count) ← serialize_results results sp w1 0 0;
  match missing_pages with
  | [] => mret (b_count, c_count, missing_pages)
  | _ => second_run missing_pages sp w2 b_count c_count
  end.

(** Lines 149-178 of the script. [root] stands for the folder above the
    module; the planner is run in [w0], the two runs in [w1] and [w2]. *)
Definition __main__ (root : string) (w0 w1 w2 : world) : io (Z * Z * list search_url) :=
  let entries_per_page := 50 in
  let sp := {| start_date := "2018-01-01"; end_date := "2023-12-31";
               entries_per_page := entries_per_page;
               json_dir := root +:+ "/data";
               cover_img_dir := root +:+ "/cover_images" |} in
  planned ← plan (Some entries_per_page) sp w0;
  match planned with
  | None => raise TypeError
  | Some (num_books, planned_num_pages) => two_runs planned_num_pages sp w1 w2
  end.

(** ** utils.join_data_files *)

(** Characters are code points below 256. *)
Definition is_digit (c : ascii) : bool :=
  (48 <=? nat_of_ascii c)%nat && (nat_of_ascii c <=? 57)%nat.

Definition digit_value (c : ascii) : Z := Z.of_nat (nat_of_ascii c) - 48.

Definition is_space (c : ascii) : bool :=
  bool_decide (nat_of_ascii c ∈ [9; 10; 11; 12; 13; 32; 133; 160]%nat).

(** What follows the digits in ['[0-9]{1,3}.json']: one character that is
    not a line feed, then [json]; [re.match] asks nothing of the rest. *)
Definition re_tail (s : string) : bool :=
  match s with
  | String c rest => negb (Ascii.eqb c "010") && String.prefix "json" rest
  | EmptyString => false
  end.

(** [re.match('[0-9]{1,3}.json', s)]: three digits are tried first, then
    two, then one. *)
Definition re_match (s : string) : bool :=
  match s with
  | String d1 r1 =>
      is_digit d1 &&
      (match r1 with
       | String d2 r2 =>
           is_digit d2 &&
           (match r2 with
            | String d3 r3 => is_digit d3 && re_tail r3
            | EmptyString => false
            end || re_tail r2)
       | EmptyString => false
       end || re_tail r1)
  | EmptyString => false
  end.

(** [s.replace(old, '')]: every occurrence of [old], left to right, without
    overlap. [skip] counts the characters of a found occurrence still to be
    dropped. *)
Fixpoint remove_go (old : string) (skip : nat) (s : string) : string :=
  match s with
  | EmptyString => EmptyString
  | String c rest =>
      match skip with
      | S k => remove_go old k rest
      | O =>
          if negb (String.eqb old "") && String.prefix old s
          then remove_go old (Nat.pred (String.length old)) rest
          else String c (remove_go old 0 rest)
      end
  end.

Definition str_remove (old s : string) : string := remove_go old 0 s.

(** The digits of a decimal literal: single underscores may stand between
    digits; spaces may follow the last digit. *)
Fixpoint all_spaces (s : string) : bool :=
  match s with
  | EmptyString => true
  | String c rest => is_space c && all_spaces rest
  end.

Fixpoint int_digits (acc : Z) (after_digit : bool) (s : string) : option Z :=
  match s with
  | EmptyString => if after_digit then Some acc else None
  | String c rest =>
      if is_digit c then int_digits (10 * acc + digit_value c) true rest
      else if Ascii.eqb c "_" && after_digit then int_digits acc false rest
      else if after_digit && all_spaces s then Some acc
      else None
  end.

Fixpoint lstrip (s : string) : string :=
  match s with
  | String c rest => if is_space c then lstrip rest else s
  | EmptyString => EmptyString
  end.

(** [int(s)] in base ten. *)
Definition py_int (s : string) : result Z :=
  let body :=
    match lstrip s with
    | String "-" rest => Z.opp <$> int_digits 0 false rest
    | String "+" rest => int_digits 0 false rest
    | t => int_digits 0 false t
    end in
  match body with
  | Some z => Ok z
  | None => Raise ValueError
  end.

Definition fname_to_int (fname : string) : result Z :=
  py_int (str_remove ".json" fname).

(** [sorted(xs, key=...)]: the keys are computed first, for every element;
    the sort is stable, and a stable sort has one possible result, here
    computed by insertion. *)
Fixpoint keyed {A} (key : A → result Z) (xs : list A) : result (list (Z * A)) :=
  match xs with
  | [] => Ok []
  | x :: rest =>
      k ← key x;
      ks ← keyed key rest;
      Ok ((k, x) :: ks)
  end.

Fixpoint insert_by_key {A} (p : Z * A) (sorted : list (Z * A)) : list (Z * A) :=
  match sorted with
  | [] => [p]
  | q :: rest => if p.1 <=? q.1 then p :: q :: rest else q :: insert_by_key p rest
  end.

Definition py_sorted {A} (key : A → result Z) (xs : list A) : result (list A) :=
  ks ← keyed key xs;
  Ok (foldr insert_by_key [] ks).*2.

(** An entry of the source directory: its name, and what [open] followed by
    [json.load] gives on it. *)
Record dir_entry : Type := {
  entry_name : string;
  entry_load : result json
}.

(** [for n in paths: grouped_data += json.load(open(n))] *)
Fixpoint load_all (paths : list dir_entry) (grouped_data : list json)
    : result (list json) :=
  match paths with
  | [] => Ok grouped_data
  | n :: rest =>
      v ← entry_load n;
      items ← py_iter v;
      load_all rest (grouped_data ++ items)
  end.

(** The files the merge reads, in the order it reads them. *)
Definition ordered_json_paths (listing : list dir_entry) : result (list dir_entry) :=
  py_sorted (λ x, fname_to_int (entry_name x))
    (filter (λ x, re_match (entry_name x) = true) listing).

(** [iterdir] is what listing [source_path] gives, in the order the file
    system lists it; the destination is [Path(dest_dir, dest_name)]. *)
Definition join_data_files (iterdir : result (list dir_entry)) (w : world)
    (dest_dir dest_name : string) : io bool :=
  try_except
    (listing ← lift iterdir;
     paths ← lift (ordered_json_paths listing);
     grouped_data ← lift (load_all paths []);
     d ← open_w w dest_dir dest_name;
     _ ← fill d dest_dir dest_name
           (Dumped (JArr grouped_data)) (Torn (JArr grouped_data));
     mret true)
    (λ _, Some (mret false)).

(** ** The shared semaphore *)

(** The two coroutines, seen from the semaphore. A page task is at one of
    these points of [retrieve_book_page]:
    - [Idle]: before [async with sem] (line 75);
    - [PageRequest]: inside it, awaiting [session.get] or [response.json]
      (lines 80-81);
    - [Loop r]: inside it, in the [for] loop with [r] products left, not
      inside [retrieve_cover]'s own [async with sem];
    - [CoverRequest r]: inside the [async with sem] of [retrieve_cover]
      (line 54), itself called from inside the page's (line 95), awaiting
      the cover, with [r] products left after this one;
    - [Done]: returned or raised; every [async with] has been left. *)
Module Limiter.

Inductive task : Type :=
| Idle
| PageRequest
| Loop (remaining : nat)
| CoverRequest (remaining : nat)
| Done.

(** [value] is the counter of the [asyncio.Semaphore]. *)
Record state : Type := State {
  value : nat;
  tasks : list task
}.

(** One task moves; acquiring needs a positive counter and takes one from
    it, leaving an [async with sem] gives one back. *)
Inductive task_step : nat → task → nat → task → Prop :=
| acquire_page v :
    task_step (S v) Idle v PageRequest
| page_response v n :
    task_step v PageRequest v (Loop n)
| page_fails v :
    task_step v PageRequest (S v) Done
| acquire_cover v r :
    task_step (S v) (Loop (S r)) v (CoverRequest r)
| cover_returns v r :
    task_step v (CoverRequest r) (S v) (Loop r)
| cover_raises v r :
    task_step v (CoverRequest r) (S (S v)) Done
| page_leaves v r :
    task_step v (Loop r) (S v) Done.

(** The event loop runs any task that can move. *)
Inductive step : state → state → Prop :=
| step_task v v' t t' before after :
    task_step v t v' t' →
    step (State v (before ++ t :: after)) (State v' (before ++ t' :: after)).

(** A batch: [asyncio.Semaphore(K)] and one task per URL. *)
Definition init (K n : nat) : state := State K (replicate n Idle).

Definition reachable (K n : nat) (s : state) : Prop := rtc step (init K n) s.

(** The page's own [async with sem] is open. *)
Definition holds_page_slot (t : task) : bool :=
  match t with
  | PageRequest | Loop _ | CoverRequest _ => true
  | Idle | Done => false
  end.

(** The [async with sem] of a [retrieve_cover] call is open. *)
Definition holds_cover_slot (t : task) : bool :=
  match t with
  | CoverRequest _ => true
  | _ => false
  end.

Definition page_request_pending (t : task) : bool :=
  match t with
  | PageRequest => true
  | _ => false
  end.

Definition held (t : task) : nat :=
  Nat.b2n (holds_page_slot t) + Nat.b2n (holds_cover_slot t).

(** Requests awaiting a response: the page's or a cover's. *)
Definition in_flight (t : task) : nat :=
  Nat.b2n (page_request_pending t) + Nat.b2n (holds_cover_slot t).

Definition slots_held (s : state) : nat := sum_list_with held (tasks s).
Definition requests_in_flight (s : state) : nat := sum_list_with in_flight (tasks s).

End Limiter.

(** ** Concrete inputs used by the examples below *)

Module Samples.

Definition sp (per_page : Z) : ScraperParams :=
  {| start_date := "2018-01-01"; end_date := "2023-12-31";
     entries_per_page := per_page;
     json_dir := "data"; cover_img_dir := "cover_images" |}.

Definition json_response (code : Z) (v : json) : response :=
  {| status := code; body_json := Ok v; body_bytes := Ok "" |}.

Definition image_response (code : Z) (bytes : string) : response :=
  {| status := code; body_json := Raise ContentTypeError; body_bytes := Ok bytes |}.

(** The answer of the search endpoint: [data.total] and [data.products]. *)
Definition search_body (total : Z) (products : list json) : json :=
  JObj [("data", JObj [("total", JInt total); ("products", JArr products)])].

(** A world where every search answers [body], no cover can be reached
    and the disk takes every write. *)
Definition answering (body : json) : world :=
  {| search_get := λ _, Responds (json_response 200 body);
     cover_get := λ _, GetRaises ClientConnectorError;
     disk := λ _ _, Accepts |}.

(** A world where nothing can be reached. *)
Definition unreachable : world :=
  {| search_get := λ _, GetRaises ClientConnectorError;
     cover_get := λ _, GetRaises ClientConnectorError;
     disk := λ _ _, Accepts |}.

Definition attrs : json :=
  JObj [("publication_date", JStr "2021-05-01"); ("publishers", JArr [JStr "Apress"]);
        ("page_count", JInt 320); ("average_rating", JReal (9 # 2))].

(** A product entry with every field the scraper reads. *)
Definition book (isbn : string) : json :=
  JObj [("product_id", JStr isbn); ("title", JStr "A title");
        ("authors", JArr [JStr "A. Writer"]); ("description", JStr "About");
        ("language", JStr "en"); ("categories", JArr []);
        ("url", JStr ("https://learning.oreilly.com/api/v1/book/" +:+ isbn +:+ "/"));
        ("cover_image", JStr ("https://learning.oreilly.com/covers/" +:+ isbn +:+ "/"));
        ("custom_attributes", attrs)].

(** The same entry without [title] and [language]. *)
Definition book_without_title : json :=
  JObj [("product_id", JStr "9781"); ("authors", JArr []);
        ("description", JStr "About"); ("categories", JArr []);
        ("url", JStr "u"); ("cover_image", JStr "https://c/9781/");
        ("custom_attributes", attrs)].

(** An entry whose [custom_attributes] has no [page_count]. *)
Definition book_without_page_count : json :=
  JObj [("product_id", JStr "9781"); ("title", JStr "A title");
        ("authors", JArr []); ("description", JStr "About");
        ("language", JStr "en"); ("categories", JArr []);
        ("url", JStr "u"); ("cover_image", JStr "https://c/9781/");
        ("custom_attributes",
         JObj [("publication_date", JStr "2021-05-01"); ("publishers", JArr []);
               ("average_rating", JReal (9 # 2))])].

Definition cover_url (isbn : string) : string :=
  "https://learning.oreilly.com/covers/" +:+ isbn +:+ "/500w".

(** Every search answers a page of three books; the cover of [bad] cannot
    be reached, the other covers arrive with status 200. *)
Definition three_books (bad : string) : world :=
  {| search_get := λ _,
       Responds (json_response 200 (search_body 3 [book "111"; book "222"; book "333"]));
     cover_get := λ u,
       if String.eqb u (cover_url bad) then GetRaises ClientConnectorError
       else Responds (image_response 200 "JFIF");
     disk := λ _ _, Accepts |}.

(** As [three_books "222"], but the search for page [bad] cannot
    connect. *)
Definition page_unreachable (bad : string) : world :=
  {| search_get := λ url,
       match page_num_from_url url with
       | Ok page_num =>
           if String.eqb page_num bad then GetRaises ClientConnectorError
           else search_get (three_books "222") url
       | Raise _ => search_get (three_books "222") url
       end;
     cover_get := cover_get (three_books "222");
     disk := λ _ _, Accepts |}.

(** Every search is answered by an error page that is not JSON. *)
Definition error_page : world :=
  {| search_get := λ _,
       Responds {| status := 503; body_json := Raise ContentTypeError;
                   body_bytes := Ok "<html>Service Unavailable</html>" |};
     cover_get := λ _, GetRaises ClientConnectorError;
     disk := λ _ _, Accepts |}.

End Samples.

(** ** Vocabulary of the statements *)

(** The status next to a record is the flag [retrieve_cover] returned for
    the cover of that record. *)
Definition cover_flag_of (params : ScraperParams) (w : world) (elem : json * Z) : Prop :=
  ∃ base_url flag,
    dict_get elem.1 "cover_image" = Ok base_url ∧
    outcome (retrieve_cover (build_cover_img_url base_url) params w) = Ok flag ∧
    elem.2 = Z.b2z flag.


(** An artifact name: one to three digits, then [.json]. *)
Definition is_page_file (name : string) : Prop :=
  ∃ ds : list ascii,
    name = string_of_list_ascii ds +:+ ".json" ∧
    (1 ≤ length ds ≤ 3)%nat ∧ Forall (λ c, is_digit c = true) ds.

(** The number a digit string denotes. *)
Definition decimal (ds : list ascii) : Z :=
  fold_left (λ acc c, 10 * acc + digit_value c) ds 0.

(** An artifact of the merge: a page file that holds a JSON array. *)
Definition is_artifact (x : dir_entry) : Prop :=
  is_page_file (entry_name x) ∧ ∃ records, entry_load x = Ok (JArr records).

Definition records_of (x : dir_entry) : list json :=
  match entry_load x with
  | Ok (JArr records) => records
  | _ => []
  end.

Definition page_ids (paths : list dir_entry) : list (result Z) :=
  (λ x, fname_to_int (entry_name x)) <$> paths.

(** The page identifier of an artifact, as the specification reads it off
    the file name: the number that the digits at the start of the name
    denote in base ten. It is defined without the key the merge sorts by. *)
Fixpoint leading_digits (s : string) : list ascii :=
  match s with
  | String c rest => if is_digit c then c :: leading_digits rest else []
  | EmptyString => []
  end.

Definition page_number (x : dir_entry) : Z :=
  decimal (leading_digits (entry_name x)).

(** The reading of "strictly ascending numeric order of the parsed page
    identifier" for the files the merge reads, in the order it reads
    them. *)
Definition strictly_ascending (paths : list dir_entry) : Prop :=
  StronglySorted Z.lt (page_number <$> paths).

Definition ascending (paths : list dir_entry) : Prop :=
  StronglySorted Z.le (page_number <$> paths).

Definition page_file (name : string) (records : list json) : dir_entry :=
  {| entry_name := name; entry_load := Ok (JArr records) |}.

(** The reading of "a write failure leaves no partial destination file and
    does not truncate the prior content": when the merge reports failure,
    the destination holds what it held before. *)
Definition failure_keeps_destination : Prop :=
  ∀ iterdir w dest_dir dest_name (fs : store),
    outcome (join_data_files iterdir w dest_dir dest_name) = Ok false →
    apply_writes (writes (join_data_files iterdir w dest_dir dest_name)) fs
      !! (dest_dir, dest_name)
    = fs !! (dest_dir, dest_name).

(** The records the merge has in hand when it opens the destination. *)
Definition grouped_data (iterdir : result (list dir_entry)) : result (list json) :=
  listing ← iterdir;
  paths ← ordered_json_paths listing;
  load_all paths [].

Module MergeSamples.

Definition p1 : dir_entry := page_file "1.json" [JStr "first page"].
Definition p2 : dir_entry := page_file "2.json" [JStr "second page"].
Definition p10 : dir_entry := page_file "10.json" [JStr "tenth page"].
Definition p01 : dir_entry := page_file "01.json" [JStr "page one again"].
Definition dataset : dir_entry := page_file "dataset.json" [JStr "old merge"].

(** A disk on which every write breaks off after ten characters. *)
Definition failing_disk : world :=
  {| search_get := λ _, GetRaises ClientConnectorError;
     cover_get := λ _, GetRaises ClientConnectorError;
     disk := λ _ _, WriteFails 10 |}.

(** A store where the destination holds an earlier merge. *)
Definition earlier : store :=
  {[ ("data", "dataset.json") := Dumped (JArr [JStr "old merge"]) ]}.

End MergeSamples.

(** The order [insert_by_key] keeps. *)
Definition key_le {A} (p q : Z * A) : Prop := p.1 ≤ q.1.

(** ** Vocabulary for the counts *)

Definition artifact_name (page_num : Z) : string := pretty page_num +:+ ".json".

(** The number of records an artifact holds. *)
Definition records_in (c : option content) : Z :=
  match c with
  | Some (Dumped (JArr records)) => Z.of_nat (length records)
  | _ => 0
  end.

(** What the fetch of page [p] returns in world [w]; the default stands for
    a fetch that raises, which ends the script. *)
Definition fetched (sp : ScraperParams) (w : world) (p : Z) : page_result :=
  match outcome (retrieve_book_page (build_book_page_url sp p) sp w) with
  | Ok res => res
  | Raise _ => ([], build_book_page_url sp p, false)
  end.

(** The outcome the script keeps for page [p]: that of the first run when
    the page was retrieved then, else that of the second run when the page
    was retrieved then, else nothing. *)
Definition kept (sp : ScraperParams) (w1 w2 : world) (p : Z) : list (json * Z) :=
  if is_ok_idx (fetched sp w1 p) then (fetched sp w1 p).1.1
  else if is_ok_idx (fetched sp w2 p) then (fetched sp w2 p).1.1
  else [].

Definition write_key (w : write) : string * string :=
  match w with Store dir name _ => (dir, name) end.

Definition write_content (w : write) : content :=
  match w with Store _ _ c => c end.

(** The content the last write to [k] stores, if [k] is written at all. *)
Fixpoint last_store (k : string * string) (ws : list write) : option content :=
  match ws with
  | [] => None
  | w :: rest =>
      match last_store k rest with
      | Some c => Some c
      | None => if decide (write_key w = k) then Some (write_content w) else None
      end
  end.

Definition is_cover_write (w : write) : Prop :=
  ∃ isbn, (write_key w).2 = isbn +:+ ".jpeg".

Definition is_page_write (sp : ScraperParams) (planned : Z) (w : write) : Prop :=
  ∃ p, p ∈ seqZ 1 planned ∧ write_key w = (json_dir sp, artifact_name p).

(** The two writes [serialize_results] makes for page [p] with outcome
    [res]. *)
Definition page_writes (sp : ScraperParams) (f : Z → page_result) (p : Z) : list write :=
  [Store (json_dir sp) (artifact_name p) Empty;
   Store (json_dir sp) (artifact_name p) (Dumped (JArr (f p).1.1.*1))].

(** ** Vocabulary for the further properties *)

(** The products a page response carries: lines 81-83, up to the [for]. *)
Definition products_of (r : response) : result (list json) :=
  content ← body_json r;
  data ← subscript content "data";
  products ← subscript data "products";
  py_iter products.

(** [sep in s] *)
Fixpoint mentions (sep : ascii) (s : string) : bool :=
  match s with
  | EmptyString => false
  | String c rest => Ascii.eqb c sep || mentions sep rest
  end.

(** A file the cover fetch may write: [<isbn>.jpeg] in the cover folder. *)
Definition is_cover_file (params : ScraperParams) (w : write) : Prop :=
  ∃ isbn c, w = Store (cover_img_dir params) (isbn +:+ ".jpeg") c.

(** The same world, every search response carrying the status [code]. *)
Definition with_search_status (code : Z) (w : world) : world :=
  {| search_get := λ url,
       match search_get w url with
       | Responds r =>
           Responds {| status := code; body_json := body_json r;
                       body_bytes := body_bytes r |}
       | GetRaises e => GetRaises e
       end;
     cover_get := cover_get w;
     disk := disk w |}.

(** What [serialize_results] writes for one outcome: nothing when its URL
    gives no page number. *)
Definition outcome_writes (sp : ScraperParams) (r : page_result) : list write :=
  match page_num_from_url (url_idx r) with
  | Ok page_num =>
      [Store (json_dir sp) (page_num +:+ ".json") Empty;
       Store (json_dir sp) (page_num +:+ ".json") (Dumped (JArr r.1.1.*1))]
  | Raise _ => []
  end.

(** The parameters the script gives to every call. *)
Definition script_params (root : string) : ScraperParams :=
  {| start_date := "2018-01-01"; end_date := "2023-12-31";
     entries_per_page := 50;
     json_dir := root +:+ "/data";
     cover_img_dir := root +:+ "/cover_images" |}.

(** A world as [w], where the file [name] cannot be opened for writing. *)
Definition refusing (name : string) (w : world) : world :=
  {| search_get := search_get w;
     cover_get := cover_get w;
     disk := λ dir n, if String.eqb n name then OpenFails else disk w dir n |}.

(** The merge takes the file the serializer names for page [p] and reads
    [p] back from its name. *)
Definition found_by_merge (p : Z) : bool :=
  re_match (artifact_name p) &&
  match fname_to_int (artifact_name p) with
  | Ok z => z =? p
  | Raise _ => false
  end.

Definition key_lt {A} (p q : Z * A) : Prop := p.1 < q.1.

(** Cover requests awaiting their response. *)
Definition covers_in_flight (s : Limiter.state) : nat :=
  sum_list_with (λ t, Nat.b2n (Limiter.holds_cover_slot t)) (Limiter.tasks s).

(** Every slot is held by a page that has its response and waits, inside
    its own slot, for a slot to fetch a cover; [m] more pages wait for
    their first slot. *)
Definition all_pages_waiting (K m : nat) : Limiter.state :=
  Limiter.State 0 (replicate K (Limiter.Loop 1) ++ replicate m Limiter.Idle).

(** ** The batch under its semaphore *)

(** How [retrieve_book_page] ends when [e] is raised inside its [try]
    (lines 98-102), [elems] being the records appended so far: the handler
    returns them with the flag unset, any other exception leaves the
    coroutine. *)
Definition page_except (url : search_url) (elems : list (json * Z)) (e : exn)
    : result page_result :=
  match e with
  | ClientConnectorError => Ok (elems, url, false)
  | _ => Raise e
  end.

(** Lines 84-94 for one product: the record and the URL of its cover. *)
Definition cover_call (prod : json) : result (json * string) :=
  data ← extract_data prod;
  base_url ← dict_get data "cover_image";
  Ok (data, build_cover_img_url base_url).

(** [main] starts one [retrieve_book_page] per URL on one event loop, all
    of them sharing [semaphore]. A page task is suspended at one of these
    points:
    - [Waiting]: at [async with sem] (line 75), the slot not yet taken;
    - [Requesting]: inside it, awaiting the response and its body (lines
      80-81);
    - [Looping]: in the [for] loop, [products] still to be handled and
      [elems] appended so far;
    - [CoverWaiting]: in [retrieve_cover] for the record [data], at its
      [async with sem] (line 54), the second slot not yet taken;
    - [CoverFetching]: inside it, awaiting the cover (lines 57-62);
    - [Returned], [Raised]: the coroutine is over and has left every
      [async with]. *)
Module Batch.

Inductive task : Type :=
| Waiting (url : search_url)
| Requesting (url : search_url)
| Looping (url : search_url) (products : list json) (elems : list (json * Z))
| CoverWaiting (url : search_url) (data : json) (cover_url : string)
    (rest : list json) (elems : list (json * Z))
| CoverFetching (url : search_url) (data : json) (cover_url : string)
    (rest : list json) (elems : list (json * Z))
| Returned (r : page_result)
| Raised (e : exn).

(** [value] is the counter of the semaphore, [written] the file writes done
    so far, in the order they were done. *)
Record state : Type := State {
  value : nat;
  tasks : list task;
  written : list write
}.

Definition leave (url : search_url) (elems : list (json * Z)) (e : exn) : task :=
  match page_except url elems e with
  | Ok r => Returned r
  | Raise e => Raised e
  end.

(** What a task does when the event loop resumes it, up to its next
    suspension: the new counter, the new point, the writes done. [None]: the
    task cannot be resumed, because it waits for a slot while the counter
    is 0, or because it is over. *)
Definition next (params : ScraperParams) (w : world) (v : nat) (t : task)
    : option (nat * task * list write) :=
  match t with
  | Waiting url =>
      match v with
      | S v' => Some (v', Requesting url, [])
      | O => None
      end
  | Requesting url =>
      match search_get w url with
      | GetRaises e => Some (S v, leave url [] e, [])
      | Responds response =>
          match products_of response with
          | Raise e => Some (S v, leave url [] e, [])
          | Ok products => Some (v, Looping url products [], [])
          end
      end
  | Looping url [] elems => Some (S v, Returned (elems, url, true), [])
  | Looping url (prod :: rest) elems =>
      match cover_call prod with
      | Raise e => Some (S v, leave url elems e, [])
      | Ok (data, cover_url) => Some (v, CoverWaiting url data cover_url rest elems, [])
      end
  | CoverWaiting url data cover_url rest elems =>
      match v with
      | S v' => Some (v', CoverFetching url data cover_url rest elems, [])
      | O => None
      end
  | CoverFetching url data cover_url rest elems =>
      let cover := retrieve_cover cover_url params w in
      match outcome cover with
      | Ok cover_status =>
          Some (S v, Looping url rest (elems ++ [(data, Z.b2z cover_status)]), writes cover)
      | Raise e => Some (S (S v), leave url elems e, writes cover)
      end
  | Returned _ | Raised _ => None
  end.

(** The exception of a task that has raised, if there is one: [tqdm.gather]
    raises it as soon as the task is over, and [asyncio.run] then cancels
    the tasks that are left. *)
Fixpoint first_raised (ts : list task) : option exn :=
  match ts with
  | [] => None
  | Raised e :: _ => Some e
  | _ :: rest => first_raised rest
  end.



(** The event loop resumes task [i]. *)
Definition sched_step (params : ScraperParams) (w : world) (i : nat) (s : state)
    : option state :=
  match first_raised (tasks s), tasks s !! i with
  | None, Some t =>
      match next params w (value s) t with
      | Some (v', t', ws) => Some (State v' (<[i := t']> (tasks s)) (written s ++ ws))
      | None => None
      end
  | _, _ => None
  end.

Definition step (params : ScraperParams) (w : world) (s s' : state) : Prop :=
  ∃ i, sched_step params w i s = Some s'.

(** The tasks are resumed in the order [schedule] gives. *)
Fixpoint run (params : ScraperParams) (w : world) (schedule : list nat) (s : state)
    : option state :=
  match schedule with
  | [] => Some s
  | i :: rest =>
      match sched_step params w i s with
      | Some s' => run params w rest s'
      | None => None
      end
  end.

(** [main(urls, params, asyncio.Semaphore(K))] *)
Definition init (K : nat) (urls : list search_url) : state :=
  State K (Waiting <$> urls) [].

Definition reachable (params : ScraperParams) (w : world) (K : nat)
    (urls : list search_url) (s : state) : Prop :=
  rtc (step params w) (init K urls) s.

End Batch.

(** *** Vocabulary for the batch *)













(** *** Vocabulary for connection failures *)

(** A connection-level failure of a request: the connection cannot be
    established ([ClientConnectorError]), or it breaks while in use
    ([ClientOSError], as when the peer resets it). *)
Definition connection_failure (e : exn) : Prop :=
  e = ClientConnectorError ∨ e = ClientOSError.

(** The reading of "a connection-level failure of the page request itself
    marks the page as failed and yields an empty record list for that
    page". *)
Definition page_failure_is_flagged : Prop :=
  ∀ url params w e,
    connection_failure e → search_get w url = GetRaises e →
    outcome (retrieve_book_page url params w) = Ok ([], url, false).

(** A world where every connection is reset while in use. *)
Definition connection_reset : world :=
  {| search_get := λ _, GetRaises ClientOSError;
     cover_get := λ _, GetRaises ClientOSError;
     disk := λ _ _, Accepts |}.

(** * Properties *)

(** ** The planner *)



(** *** The quotient of two counts as a float *)








Lemma plan_unbound_global (total : Z) (products : list json) (params : ScraperParams) :
  plan None params (Samples.answering (Samples.search_body total products))
  = IO [] (Raise (NameError "entries_per_page")).
Proof. reflexivity. Qed.

(** The scenario of the script: 5522 results, 50 per page, 111 pages. *)
Example plan_5522_by_50 :
  outcome (plan (Some 50) (Samples.sp 50) (Samples.answering (Samples.search_body 5522 [])))
  = Ok (Some (JInt 5522, 111)).
Proof. reflexivity. Qed.

(** C5. The planner is meant to return [(total, ceil(total / page_size))]
    for the page size it is given. Called with [entries_per_page = 25] in
    its parameters while the module's global [entries_per_page] is 50, on a
    total of 100, the code returns 2 pages; the page size passed to it
    gives 4. *)
Theorem plan_ignores_its_page_size :
  entries_per_page (Samples.sp 25) = 25 ∧
  outcome (plan (Some 50) (Samples.sp 25) (Samples.answering (Samples.search_body 100 [])))
  = Ok (Some (JInt 100, 2)) ∧
  math_ceil (inject_Z 100 / inject_Z (entries_per_page (Samples.sp 25))) = 4.
Proof. repeat split; reflexivity. Qed.

(** ** The cover fetch *)

Lemma retrieve_cover_cases (url : string) (params : ScraperParams) (w : world) :
  retrieve_cover url params w =
  match cover_get w url with
  | GetRaises ClientConnectorError => IO [] (Ok false)
  | GetRaises e => IO [] (Raise e)
  | Responds r =>
      if status r =? 200 then
        match index_from_end (split "/" url) 2 with
        | Raise e => IO [] (Raise e)
        | Ok isbn =>
            let dir := cover_img_dir params in
            let name := isbn +:+ ".jpeg" in
            match disk w dir name, body_bytes r with
            | OpenFails, _ => IO [] (Raise OSError)
            | _, Raise ClientConnectorError => IO [Store dir name Empty] (Ok false)
            | _, Raise e => IO [Store dir name Empty] (Raise e)
            | Accepts, Ok bytes =>
                IO [Store dir name Empty; Store dir name (Raw bytes)] (Ok true)
            | WriteFails n, Ok bytes =>
                IO [Store dir name Empty; Store dir name (Raw (String.substring 0 n bytes))]
                   (Raise OSError)
            end
        end
      else IO [] (Ok false)
  end.
Proof.
  unfold retrieve_cover, try_except, with_get.
  destruct (cover_get w url) as [e|r]; [by destruct e|].
  destruct (status r =? 200); [|done].
  unfold index_from_end.
  destruct (rev (split "/" url) !! Nat.pred 2) as [isbn|]; [|done].
  cbn. unfold open_w.
  destruct (disk w (cover_img_dir params) (isbn +:+ ".jpeg"));
    destruct (body_bytes r) as [bytes|e]; try done; by destruct e.
Qed.

(** C10. A cover fetch returns [True] exactly when the response has status
    200 and the image is written in full (then the file holds the bytes of
    the response); a response with another status writes nothing and
    returns [False] without raising. *)
Theorem cover_ok_iff_200_and_written (url : string) (params : ScraperParams) (w : world) :
  (outcome (retrieve_cover url params w) = Ok true ↔
   ∃ r isbn bytes,
     cover_get w url = Responds r ∧ status r = 200 ∧
     index_from_end (split "/" url) 2 = Ok isbn ∧
     body_bytes r = Ok bytes ∧
     disk w (cover_img_dir params) (isbn +:+ ".jpeg") = Accepts ∧
     last (writes (retrieve_cover url params w))
     = Some (Store (cover_img_dir params) (isbn +:+ ".jpeg") (Raw bytes))) ∧
  (∀ r, cover_get w url = Responds r ∧ status r ≠ 200 →
        retrieve_cover url params w = IO [] (Ok false)).
Proof.
  rewrite retrieve_cover_cases. split.
  - split.
    + destruct (cover_get w url) as [e|r]; [by destruct e|].
      destruct (Z.eqb_spec (status r) 200) as [Hst|Hst]; [|done].
      destruct (index_from_end (split "/" url) 2) as [isbn|e]; [|done].
      cbv zeta.
      destruct (disk w (cover_img_dir params) (isbn +:+ ".jpeg")) eqn:Hd;
        destruct (body_bytes r) as [bytes|e] eqn:Hb; try done; try by destruct e.
      intros _. exists r, isbn, bytes. by rewrite Hd.
    + intros (r & isbn & bytes & Hg & Hst & Hi & Hb & Hd & _).
      rewrite Hg, Hst, Hi. cbv zeta. by rewrite Hd, Hb.
  - intros r [-> Hst]. apply Z.eqb_neq in Hst. by rewrite Hst.
Qed.

Lemma cover_ok_iff_200_and_written_witness :
  ∃ r isbn bytes,
    cover_get (Samples.three_books "222") (Samples.cover_url "111") = Responds r ∧
    status r = 200 ∧
    index_from_end (split "/" (Samples.cover_url "111")) 2 = Ok isbn ∧
    body_bytes r = Ok bytes ∧
    disk (Samples.three_books "222") (cover_img_dir (Samples.sp 50)) (isbn +:+ ".jpeg")
    = Accepts ∧
    last (writes (retrieve_cover (Samples.cover_url "111") (Samples.sp 50)
                    (Samples.three_books "222")))
    = Some (Store (cover_img_dir (Samples.sp 50)) (isbn +:+ ".jpeg") (Raw bytes)).
Proof.
  refine (proj1 (proj1 (cover_ok_iff_200_and_written
                          (Samples.cover_url "111") (Samples.sp 50)
                          (Samples.three_books "222"))) _).
  vm_compute. reflexivity.
Defined.


(** The handler of [retrieve_cover] leaves no connection error to its
    caller. *)
Lemma retrieve_cover_never_connector_error (url : string) (params : ScraperParams) (w : world) :
  outcome (retrieve_cover url params w) ≠ Raise ClientConnectorError.
Proof.
  rewrite retrieve_cover_cases.
  destruct (cover_get w url) as [e|r]; [by destruct e|].
  destruct (status r =? 200); [|done].
  unfold index_from_end.
  destruct (rev (split "/" url) !! Nat.pred 2) as [isbn|]; [|done].
  cbv zeta.
  destruct (disk w (cover_img_dir params) (isbn +:+ ".jpeg"));
    destruct (body_bytes r) as [bytes|e]; try done; by destruct e.
Qed.

(** ** Extraction of a BookRecord *)

Lemma get_fields_raises (prod : json) (fields : list string) (data : list (string * json)) (e : exn) :
  get_fields prod fields data = Raise e → e = AttributeError.
Proof.
  revert data. induction fields as [|f fields IH]; intros data; [done|].
  cbn. destruct prod; cbn; try by intros [= <-].
  apply IH.
Qed.

Lemma index_fields_raises (prod : json) (fields : list string) (data : list (string * json)) (e : exn) :
  index_fields prod fields data = Raise e → e = TypeError ∨ ∃ k, e = KeyError k.
Proof.
  revert data. induction fields as [|f fields IH]; intros data; [done|].
  cbn. unfold subscript at 1.
  destruct prod; cbn; try by (intros [= <-]; left).
  destruct (assoc "custom_attributes" items) as [attrs|]; cbn;
    [|intros [= <-]; right; eauto].
  destruct attrs as [| | | | | |attrs]; cbn; try by (intros [= <-]; left).
  destruct (assoc f attrs); cbn; [apply IH|intros [= <-]; right; eauto].
Qed.

Lemma extract_data_raises (prod : json) (e : exn) :
  extract_data prod = Raise e →
  e = AttributeError ∨ e = TypeError ∨ ∃ k, e = KeyError k.
Proof.
  unfold extract_data, mbind, result_bind.
  destruct (get_fields prod base_fields []) as [data|e'] eqn:Hg.
  - destruct (index_fields prod custom_attr_fields data) as [data'|e''] eqn:Hi; [done|].
    intros [= <-]. right. by eapply index_fields_raises.
  - intros [= <-]. left. by eapply get_fields_raises.
Qed.

Lemma extract_data_is_dict (prod data : json) :
  extract_data prod = Ok data → ∃ items, data = JObj items.
Proof.
  unfold extract_data, mbind, result_bind.
  destruct (get_fields prod base_fields []) as [d|]; [|done].
  destruct (index_fields prod custom_attr_fields d) as [d'|]; [|done].
  intros [= <-]. eauto.
Qed.

(** A product that is a dict with a complete [custom_attributes]: the record
    has the value of every top-level field, and [None] where the product has
    no such field. *)
Lemma extract_data_top_level (items attrs : list (string * json)) :
  assoc "custom_attributes" items = Some (JObj attrs) →
  Forall (λ f, is_Some (assoc f attrs)) custom_attr_fields →
  ∃ data,
    extract_data (JObj items) = Ok (JObj data) ∧
    data.*1 = base_fields ++ custom_attr_fields ∧
    Forall (λ f, assoc f data = Some (default JNull (assoc f items))) base_fields ∧
    Forall (λ f, assoc f data = assoc f attrs) custom_attr_fields.
Proof.
  intros Hca Hall. unfold custom_attr_fields in Hall.
  apply Forall_cons in Hall as [[v1 H1] Hall].
  apply Forall_cons in Hall as [[v2 H2] Hall].
  apply Forall_cons in Hall as [[v3 H3] Hall].
  apply Forall_cons in Hall as [[v4 H4] _].
  unfold extract_data. cbn. rewrite Hca. cbn. rewrite H1, H2, H3, H4. cbn.
  eexists. split; [done|]. split; [done|].
  split; unfold base_fields, custom_attr_fields;
    repeat (apply Forall_cons; split); try (by apply Forall_nil_2); cbn; congruence.
Qed.

Example extract_without_title :
  ∃ data, extract_data Samples.book_without_title = Ok (JObj data) ∧
          assoc "title" data = Some JNull ∧ assoc "language" data = Some JNull ∧
          assoc "product_id" data = Some (JStr "9781").
Proof. eexists. split; [reflexivity|]. done. Qed.

(** C8. A field missing from a product entry is meant to be recorded as
    absent, the extraction still succeeding. For a product whose
    [custom_attributes] has no [page_count] the extraction raises
    [KeyError], and the batch that holds the page raises with it. *)
Theorem extract_missing_custom_attribute_raises :
  extract_data Samples.book_without_page_count = Raise (KeyError "page_count") ∧
  outcome (main [build_book_page_url (Samples.sp 50) 1] (Samples.sp 50)
             (Samples.answering (Samples.search_body 1 [Samples.book_without_page_count])))
  = Raise (KeyError "page_count").
Proof. split; reflexivity. Qed.

(** ** The page fetch *)

Lemma page_loop_spec (products : list json) (params : ScraperParams) (w : world)
    (elems : list (json * Z)) :
  ∃ more,
    (page_loop products params w elems).1 = elems ++ more ∧
    Forall (cover_flag_of params w) more ∧
    (is_ok (outcome (page_loop products params w elems).2) = true →
     length more = length products) ∧
    outcome (page_loop products params w elems).2 ≠ Raise ClientConnectorError.
Proof.
  revert elems. induction products as [|prod rest IH]; intros elems.
  { exists []. by rewrite app_nil_r. }
  cbn [page_loop].
  destruct (extract_data prod) as [data|e] eqn:Hx.
  2:{ exists []. rewrite app_nil_r. repeat split; [done..|].
      cbn. intros [= ->]. by destruct (extract_data_raises _ _ Hx) as [?|[?|[? ?]]]. }
  destruct (dict_get data "cover_image") as [base_url|e] eqn:Hc.
  2:{ apply extract_data_is_dict in Hx as [items ->]. done. }
  destruct (outcome (retrieve_cover (build_cover_img_url base_url) params w))
    as [flag|e] eqn:Hr.
  2:{ exists []. rewrite app_nil_r. repeat split; [done..|].
      cbn. intros [= ->].
      by apply (retrieve_cover_never_connector_error
                  (build_cover_img_url base_url) params w). }
  destruct (IH (elems ++ [(data, Z.b2z flag)])) as (more & Hfst & Hall & Hlen & Hne).
  destruct (page_loop rest params w (elems ++ [(data, Z.b2z flag)])) as [elems' tail].
  cbn in *. exists ((data, Z.b2z flag) :: more).
  split; [by rewrite Hfst, <- app_assoc|].
  split; [constructor; [by exists base_url, flag|done]|].
  split; [intros H; cbn; by rewrite Hlen|done].
Qed.


(** What a returned outcome looks like: it carries the URL it was asked
    for; a failed page carries no record; each status is the flag of the
    cover fetch of its record. *)
Lemma retrieve_book_page_returns (url : search_url) (params : ScraperParams) (w : world)
    (res : list (json * Z)) (url' : search_url) (ok : bool) :
  outcome (retrieve_book_page url params w) = Ok (res, url', ok) →
  url' = url ∧ (ok = false → res = []) ∧ Forall (cover_flag_of params w) res.
Proof.
  unfold retrieve_book_page.
  destruct (search_get w url) as [e|r].
  { destruct e; cbn; intros [= <- <- <-] || done. done. }
  destruct (body_json r ≫= _) as [products|e].
  2:{ destruct e; cbn; intros [= <- <- <-] || done. done. }
  destruct (page_loop_spec products params w []) as (more & Hfst & Hall & _ & Hne).
  destruct (page_loop products params w []) as [elems loop]. cbn in Hfst, Hne. subst elems.
  destruct (outcome loop) as [[]|e]; cbn.
  - intros [= <- <- <-]. done.
  - destruct e; cbn; done.
Qed.

Lemma retrieve_book_page_connector_error (url : search_url) (params : ScraperParams)
    (w : world) :
  search_get w url = GetRaises ClientConnectorError →
  retrieve_book_page url params w = IO [] (Ok ([], url, false)).
Proof. intros H. unfold retrieve_book_page. by rewrite H. Qed.

(** The scenario of the specification: three products, the cover of the
    second cannot be fetched. *)
Example three_products_one_cover_missing :
  ∃ d1 d2 d3,
    outcome (retrieve_book_page (build_book_page_url (Samples.sp 50) 1) (Samples.sp 50)
               (Samples.three_books "222"))
    = Ok ([(d1, 1); (d2, 0); (d3, 1)], build_book_page_url (Samples.sp 50) 1, true).
Proof. do 3 eexists. vm_compute. reflexivity. Qed.

(** *** The page fetch as one outcome *)










(** C7, as stated, fails: a page request whose connection is reset raises
    [ClientOSError], which no handler matches; the page fetch raises
    instead of marking the page as failed. *)
Lemma reset_connection_is_raised : ¬ page_failure_is_flagged.
Proof.
  intros H.
  specialize (H (build_book_page_url (Samples.sp 50) 1) (Samples.sp 50) connection_reset
                ClientOSError (or_intror eq_refl) eq_refl).
  discriminate H.
Qed.

(** ** The batch *)

Lemma outcome_bind {A B} (m : io A) (f : A → io B) :
  outcome (m ≫= f) = match outcome m with Ok a => outcome (f a) | Raise e => Raise e end.
Proof. unfold mbind, io_bind. by destruct (outcome m). Qed.

Lemma writes_bind {A B} (m : io A) (f : A → io B) :
  writes (m ≫= f) = writes m ++ match outcome m with Ok a => writes (f a) | Raise _ => [] end.
Proof. unfold mbind, io_bind. destruct (outcome m); cbn; [done|by rewrite app_nil_r]. Qed.

Lemma main_cons (url : search_url) (urls : list search_url) (params : ScraperParams)
    (w : world) :
  outcome (main (url :: urls) params w) =
  match outcome (retrieve_book_page url params w) with
  | Raise e => Raise e
  | Ok r =>
      match outcome (main urls params w) with
      | Raise e => Raise e
      | Ok rs => Ok (r :: rs)
      end
  end.
Proof.
  cbn [main]. rewrite outcome_bind.
  destruct (outcome (retrieve_book_page url params w)); [|done].
  rewrite outcome_bind. by destruct (outcome (main urls params w)).
Qed.


Lemma main_raises (urls : list search_url) (params : ScraperParams) (w : world) (e : exn) :
  outcome (main urls params w) = Raise e →
  ∃ url, url ∈ urls ∧ outcome (retrieve_book_page url params w) = Raise e.
Proof.
  induction urls as [|url urls IH]; [done|].
  rewrite main_cons.
  destruct (outcome (retrieve_book_page url params w)) as [r|e'] eqn:Hr.
  - destruct (outcome (main urls params w)) as [rs|e'']; [done|].
    intros [= ->]. destruct IH as (u & Hin & Hu); [done|].
    exists u. split; [by right|done].
  - intros [= ->]. exists url. split; [by left|done].
Qed.

Lemma main_all_return (urls : list search_url) (params : ScraperParams) (w : world) :
  Forall (λ url, is_ok (outcome (retrieve_book_page url params w)) = true) urls →
  is_ok (outcome (main urls params w)) = true.
Proof.
  induction 1 as [|url urls Hurl _ IH]; [done|].
  rewrite main_cons.
  destruct (outcome (retrieve_book_page url params w)); [|done].
  by destruct (outcome (main urls params w)).
Qed.

(** *** The batch under its semaphore *)



Section batch.
Import Batch.
Context (params : ScraperParams) (w : world).

















End batch.

Section blocked.
Import Batch.







End blocked.









(** ** The semaphore *)

Section limiter.
Import Limiter.

Lemma task_step_conserves (v v' : nat) (t t' : task) :
  task_step v t v' t' → (v + held t = v' + held t')%nat.
Proof. destruct 1; cbn; lia. Qed.



Lemma step_conserves (s s' : state) :
  step s s' → (value s + slots_held s = value s' + slots_held s')%nat.
Proof.
  destruct 1 as [v v' t t' before after Ht]. unfold slots_held. cbn.
  rewrite !sum_list_with_app. cbn.
  apply task_step_conserves in Ht. lia.
Qed.

Lemma init_slots (K n : nat) : slots_held (init K n) = 0%nat.
Proof. unfold slots_held, init. cbn. induction n; cbn; auto. Qed.

Lemma reachable_conserves (K n : nat) (s : state) :
  reachable K n s → (value s + slots_held s = K)%nat.
Proof.
  unfold reachable. intros Hr.
  eapply (rtc_ind_r (λ s, value s + slots_held s = K)%nat (init K n));
    [| |exact Hr].
  - rewrite init_slots. cbn. lia.
  - intros s1 s2 _ Hstep IH. apply step_conserves in Hstep. lia.
Qed.

Lemma reachable_step (K n : nat) (s s' : state) :
  reachable K n s → step s s' → reachable K n s'.
Proof. intros Hr Hs. eapply rtc_r; eauto. Qed.

(** One page with one product, up to the point where its cover is being
    fetched. *)
Lemma reachable_cover_request (K : nat) :
  reachable (S (S K)) 1 (State K [CoverRequest 0]).
Proof.
  assert (reachable (S (S K)) 1 (State (S K) [PageRequest])) as H1.
  { eapply reachable_step; [apply rtc_refl|].
    apply (step_task _ _ _ _ [] []). constructor. }
  assert (reachable (S (S K)) 1 (State (S K) [Loop 1])) as H2.
  { eapply reachable_step; [exact H1|].
    apply (step_task _ _ _ _ [] []). constructor. }
  eapply reachable_step; [exact H2|].
  apply (step_task _ _ _ _ [] []). constructor.
Qed.

(** Covers of two pages awaited at the same time. *)
Example covers_of_two_pages_together :
  reachable 250 2 (State 246 [CoverRequest 3; CoverRequest 0]).
Proof.
  unfold reachable, init. cbn.
  eapply rtc_l; [refine (step_task _ _ _ _ [] [Idle] (acquire_page _))|].
  eapply rtc_l; [refine (step_task _ _ _ _ [PageRequest] [] (acquire_page _))|].
  eapply rtc_l; [refine (step_task _ _ _ _ [] [PageRequest] (page_response _ 4))|].
  eapply rtc_l; [refine (step_task _ _ _ _ [Loop 4] [] (page_response _ 1))|].
  eapply rtc_l; [refine (step_task _ _ _ _ [] [Loop 1] (acquire_cover _ _))|].
  eapply rtc_l; [refine (step_task _ _ _ _ [CoverRequest 3] [] (acquire_cover _ _))|].
  apply rtc_refl.
Qed.

Lemma cover_takes_two_slots (t : task) :
  (2 * Nat.b2n (holds_cover_slot t) ≤ held t)%nat.
Proof. destruct t; cbn; lia. Qed.

Lemma covers_le_slots (s : state) : (2 * covers_in_flight s ≤ slots_held s)%nat.
Proof.
  unfold covers_in_flight, slots_held.
  induction (tasks s) as [|t l IH]; cbn; [lia|].
  pose proof (cover_takes_two_slots t). lia.
Qed.








End limiter.

(** ** The merge *)

Lemma digit_cases (c : ascii) :
  is_digit c = true →
  c = "0"%char ∨ c = "1"%char ∨ c = "2"%char ∨ c = "3"%char ∨ c = "4"%char ∨
  c = "5"%char ∨ c = "6"%char ∨ c = "7"%char ∨ c = "8"%char ∨ c = "9"%char.
Proof.
  destruct c as [[] [] [] [] [] [] [] []]; cbv; intros H; try discriminate H;
    repeat (first [left; reflexivity | right]); reflexivity.
Qed.

(** A page file passes the pattern and parses to the number its digits
    denote. *)
Lemma page_file_parses (name : string) :
  is_page_file name →
  re_match name = true ∧
  ∃ ds, name = string_of_list_ascii ds +:+ ".json" ∧ fname_to_int name = Ok (decimal ds).
Proof.
  intros (ds & -> & Hlen & Hds).
  destruct ds as [|d1 [|d2 [|d3 [|d4 ds]]]]; cbn in Hlen; try lia.
  - apply Forall_cons in Hds as [H1 _].
    split; [|exists [d1]; split; [done|]];
      destruct (digit_cases _ H1) as [?|[?|[?|[?|[?|[?|[?|[?|[?|?]]]]]]]]]; subst;
      vm_compute; reflexivity.
  - apply Forall_cons in Hds as [H1 Hds]. apply Forall_cons in Hds as [H2 _].
    split; [|exists [d1; d2]; split; [done|]];
      destruct (digit_cases _ H1) as [?|[?|[?|[?|[?|[?|[?|[?|[?|?]]]]]]]]]; subst;
      destruct (digit_cases _ H2) as [?|[?|[?|[?|[?|[?|[?|[?|[?|?]]]]]]]]]; subst;
      vm_compute; reflexivity.
  - apply Forall_cons in Hds as [H1 Hds]. apply Forall_cons in Hds as [H2 Hds].
    apply Forall_cons in Hds as [H3 _].
    split; [|exists [d1; d2; d3]; split; [done|]];
      destruct (digit_cases _ H1) as [?|[?|[?|[?|[?|[?|[?|[?|[?|?]]]]]]]]]; subst;
      destruct (digit_cases _ H2) as [?|[?|[?|[?|[?|[?|[?|[?|[?|?]]]]]]]]]; subst;
      destruct (digit_cases _ H3) as [?|[?|[?|[?|[?|[?|[?|[?|[?|?]]]]]]]]]; subst;
      vm_compute; reflexivity.
Qed.

Section sorting.
Context {A : Type}.
Implicit Types (p : Z * A) (ks : list (Z * A)).

Lemma insert_by_key_perm p ks : insert_by_key p ks ≡ₚ p :: ks.
Proof.
  induction ks as [|q ks IH]; cbn; [done|].
  destruct (p.1 <=? q.1); [done|]. by rewrite IH, Permutation_swap.
Qed.

Lemma insert_by_key_sorted p ks :
  StronglySorted key_le ks → StronglySorted key_le (insert_by_key p ks).
Proof.
  induction ks as [|q ks IH]; cbn; intros Hs.
  { repeat constructor. }
  apply StronglySorted_inv in Hs as [Hs Hq].
  destruct (Z.leb_spec p.1 q.1) as [Hle|Hlt].
  - constructor; [by constructor|].
    constructor; [done|].
    eapply Forall_impl; [exact Hq|]. unfold key_le. intros; lia.
  - constructor; [by apply IH|].
    rewrite insert_by_key_perm. constructor; [unfold key_le; lia|done].
Qed.

Lemma sort_by_key_perm ks : foldr insert_by_key [] ks ≡ₚ ks.
Proof.
  induction ks as [|p ks IH]; cbn; [done|]. by rewrite insert_by_key_perm, IH.
Qed.

Lemma sort_by_key_sorted ks : StronglySorted key_le (foldr insert_by_key [] ks).
Proof.
  induction ks as [|p ks IH]; cbn; [constructor|]. by apply insert_by_key_sorted.
Qed.

Lemma keyed_returns (key : A → result Z) (xs : list A) :
  Forall (λ x, is_ok (key x) = true) xs →
  ∃ ks, keyed key xs = Ok ks ∧ ks.*2 = xs ∧ Forall (λ p, key p.2 = Ok p.1) ks.
Proof.
  induction 1 as [|x xs Hx _ (ks & Hks & Hsnd & Hall)]; [by exists []|].
  destruct (key x) as [k|] eqn:Hk; [|done].
  exists ((k, x) :: ks). cbn. rewrite Hk, Hks. cbn.
  split; [done|]. split; [by rewrite Hsnd|]. by constructor.
Qed.

Lemma py_sorted_returns (key : A → result Z) (xs : list A) :
  Forall (λ x, is_ok (key x) = true) xs →
  ∃ ks, py_sorted key xs = Ok ks.*2 ∧ ks.*2 ≡ₚ xs ∧
        Forall (λ p, key p.2 = Ok p.1) ks ∧ StronglySorted Z.le ks.*1.
Proof.
  intros Hxs. destruct (keyed_returns key xs Hxs) as (ks & Hks & Hsnd & Hall).
  exists (foldr insert_by_key [] ks). unfold py_sorted. rewrite Hks. cbn.
  split; [done|]. split; [by rewrite sort_by_key_perm, Hsnd|].
  split; [by rewrite sort_by_key_perm|].
  pose proof (sort_by_key_sorted ks) as Hs.
  induction Hs as [|p l _ IH Hp]; cbn; constructor; [done|].
  by apply Forall_fmap.
Qed.
End sorting.

Lemma ascending_nodup_strict (ids : list Z) :
  StronglySorted Z.le ids → NoDup ids → StronglySorted Z.lt ids.
Proof.
  induction 1 as [|z ids _ IH Hz]; intros Hnd; [constructor|].
  apply NoDup_cons in Hnd as [Hnotin Hnd].
  constructor; [by apply IH|].
  apply Forall_forall. intros y Hy.
  rewrite Forall_forall in Hz. specialize (Hz y Hy).
  assert (z ≠ y) by (intros ->; done). lia.
Qed.

Lemma load_all_artifacts (paths : list dir_entry) (acc : list json) :
  Forall (λ x, ∃ records, entry_load x = Ok (JArr records)) paths →
  load_all paths acc = Ok (acc ++ concat (records_of <$> paths)).
Proof.
  intros H. revert acc.
  induction H as [|x paths [records Hx] _ IH]; intros acc; cbn.
  { by rewrite app_nil_r. }
  unfold records_of at 1. rewrite Hx. cbn. by rewrite IH, <- app_assoc.
Qed.

Lemma ordered_paths_of_artifacts (listing : list dir_entry) :
  Forall (λ x, re_match (entry_name x) = true → is_artifact x) listing →
  ∃ paths ids,
    ordered_json_paths listing = Ok paths ∧
    paths ≡ₚ filter (λ x, re_match (entry_name x) = true) listing ∧
    page_ids paths = Ok <$> ids ∧ StronglySorted Z.le ids.
Proof.
  intros Hl. unfold ordered_json_paths.
  set (files := filter (λ x, re_match (entry_name x) = true) listing).
  assert (Forall is_artifact files) as Hfiles.
  { apply Forall_forall. intros x [Hm Hin]%list_elem_of_filter.
    rewrite Forall_forall in Hl. by apply Hl. }
  destruct (py_sorted_returns (λ x, fname_to_int (entry_name x)) files)
    as (ks & Hsorted & Hperm & Hkeys & Hasc).
  { eapply Forall_impl; [exact Hfiles|]. intros x [Hname _].
    apply page_file_parses in Hname as (_ & ds & _ & ->). done. }
  exists ks.*2, ks.*1. split; [done|]. split; [done|]. split; [|done].
  unfold page_ids. clear -Hkeys.
  induction Hkeys as [|p ks Hp _ IH]; cbn; [done|]. by rewrite Hp, IH.
Qed.

Lemma join_data_files_cases (iterdir : result (list dir_entry)) (w : world)
    (dest_dir dest_name : string) :
  join_data_files iterdir w dest_dir dest_name =
  match grouped_data iterdir, disk w dest_dir dest_name with
  | Raise _, _ => IO [] (Ok false)
  | Ok _, OpenFails => IO [] (Ok false)
  | Ok data, WriteFails n =>
      IO [Store dest_dir dest_name Empty; Store dest_dir dest_name (Torn (JArr data) n)]
         (Ok false)
  | Ok data, Accepts =>
      IO [Store dest_dir dest_name Empty; Store dest_dir dest_name (Dumped (JArr data))]
         (Ok true)
  end.
Proof.
  unfold join_data_files, grouped_data, try_except.
  destruct iterdir as [listing|e]; [|done]. cbn.
  destruct (ordered_json_paths listing) as [paths|e]; [|done]. cbn.
  destruct (load_all paths []) as [data|e]; [|done]. cbn.
  unfold open_w. by destruct (disk w dest_dir dest_name).
Qed.

(** The example of the specification: [2.json], [10.json], [1.json] are
    merged as pages 1, 2, 10 (by name, [10.json] would come before
    [2.json]); [dataset.json] is not a page file. *)
Example merge_2_10_1 :
  join_data_files
    (Ok [MergeSamples.p2; MergeSamples.p10; MergeSamples.p1; MergeSamples.dataset])
    Samples.unreachable "data" "dataset.json"
  = IO [Store "data" "dataset.json" Empty;
        Store "data" "dataset.json"
          (Dumped (JArr [JStr "first page"; JStr "second page"; JStr "tenth page"]))]
       (Ok true).
Proof. reflexivity. Qed.

Lemma list_of_append (s t : string) :
  String.list_ascii_of_string (s +:+ t)
  = String.list_ascii_of_string s ++ String.list_ascii_of_string t.
Proof.
  induction s as [|c s IH]; [done|].
  change (c :: String.list_ascii_of_string (s +:+ t)
          = c :: (String.list_ascii_of_string s ++ String.list_ascii_of_string t)).
  by rewrite IH.
Qed.

Lemma leading_digits_page_file (ds : list ascii) :
  Forall (λ c, is_digit c = true) ds →
  leading_digits (string_of_list_ascii ds +:+ ".json") = ds.
Proof.
  induction 1 as [|c ds Hc _ IH]; [done|].
  cbn [string_of_list_ascii].
  change (String c (string_of_list_ascii ds) +:+ ".json")
    with (String c (string_of_list_ascii ds +:+ ".json")).
  cbn [leading_digits]. by rewrite Hc, IH.
Qed.

(** On a page file the key of the merge is the page number. *)
Lemma page_file_number (x : dir_entry) :
  is_page_file (entry_name x) → fname_to_int (entry_name x) = Ok (page_number x).
Proof.
  intros Hname. pose proof Hname as (ds & Hds & _ & Hdigits).
  apply page_file_parses in Hname as (_ & ds' & Hds' & ->).
  unfold page_number. rewrite Hds, leading_digits_page_file by done.
  rewrite Hds in Hds'.
  apply (f_equal String.list_ascii_of_string) in Hds'.
  rewrite !list_of_append, !list_ascii_of_string_of_list_ascii in Hds'.
  apply app_inv_tail in Hds'. by subst.
Qed.

Lemma page_ids_of_artifacts (paths : list dir_entry) (ids : list Z) :
  Forall is_artifact paths → page_ids paths = Ok <$> ids → ids = page_number <$> paths.
Proof.
  intros H. revert ids. induction H as [|x paths [Hx _] _ IH]; intros ids.
  { by destruct ids. }
  destruct ids as [|z ids]; [done|]. cbn.
  rewrite (page_file_number x Hx). intros [= <- Hrest]. f_equal. by apply IH.
Qed.

(** C4, as the code has it. When the entries that pass the pattern are
    page files holding arrays, the merge reads exactly those entries, in
    ascending order of the number their names carry, and writes their
    records concatenated in that order; the order is strictly ascending
    when no two of the files carry the same number. From [2.json],
    [10.json] and [1.json], listed in that order, it writes the records of
    page 1, then those of page 2, then those of page 10. *)
Theorem join_reads_in_page_order :
  (∀ (listing : list dir_entry) (w : world) (dest_dir dest_name : string),
     Forall (λ x, re_match (entry_name x) = true → is_artifact x) listing →
     disk w dest_dir dest_name = Accepts →
     ∃ paths,
       ordered_json_paths listing = Ok paths ∧
       paths ≡ₚ filter (λ x, re_match (entry_name x) = true) listing ∧
       ascending paths ∧
       (NoDup (page_number <$> filter (λ x, re_match (entry_name x) = true) listing) →
        strictly_ascending paths) ∧
       join_data_files (Ok listing) w dest_dir dest_name
       = IO [Store dest_dir dest_name Empty;
             Store dest_dir dest_name (Dumped (JArr (concat (records_of <$> paths))))]
            (Ok true)) ∧
  join_data_files (Ok [MergeSamples.p2; MergeSamples.p10; MergeSamples.p1])
    Samples.unreachable "data" "dataset.json"
  = IO [Store "data" "dataset.json" Empty;
        Store "data" "dataset.json"
          (Dumped (JArr [JStr "first page"; JStr "second page"; JStr "tenth page"]))]
       (Ok true).
Proof.
  split; [|reflexivity].
  intros listing w dest_dir dest_name Hl Hdisk.
  destruct (ordered_paths_of_artifacts listing Hl) as (paths & ids & Hp & Hperm & Hids & Hasc).
  assert (Forall is_artifact paths) as Hpaths.
  { rewrite Hperm. apply Forall_forall. intros x [Hm Hin]%list_elem_of_filter.
    rewrite Forall_forall in Hl. by apply Hl. }
  apply page_ids_of_artifacts in Hids; [|done]. subst ids.
  exists paths. split; [done|]. split; [done|]. split; [done|]. split.
  - intros Hnd. apply ascending_nodup_strict; [done|]. by rewrite Hperm.
  - rewrite join_data_files_cases. unfold grouped_data. cbn. rewrite Hp. cbn.
    rewrite load_all_artifacts, Hdisk; [done|].
    eapply Forall_impl; [exact Hpaths|]. by intros x [_ ?].
Qed.

Lemma sample_artifact (name : string) (ds : list ascii) (records : list json) :
  name = string_of_list_ascii ds +:+ ".json" →
  (1 ≤ length ds ≤ 3)%nat → forallb is_digit ds = true →
  is_artifact (page_file name records).
Proof.
  intros -> Hlen Hds. split; [|by eexists].
  exists ds. split; [done|]. split; [done|].
  apply Forall_forall. intros c Hc. rewrite forallb_forall in Hds.
  by apply Hds, list_elem_of_In.
Qed.

Lemma join_reads_in_page_order_witness :
  ∃ paths,
    ordered_json_paths
      [MergeSamples.p2; MergeSamples.p10; MergeSamples.p1; MergeSamples.dataset]
    = Ok paths ∧
    strictly_ascending paths ∧
    page_number <$> paths = [1; 2; 10].
Proof.
  destruct (proj1 join_reads_in_page_order
              [MergeSamples.p2; MergeSamples.p10; MergeSamples.p1; MergeSamples.dataset]
              Samples.unreachable "data" "dataset.json")
    as (paths & Hp & _ & _ & Hstrict & _).
  - repeat (apply Forall_cons; split); try apply Forall_nil_2; intros Hm.
    + by apply (sample_artifact _ ["2"%char]); [| cbn; lia |].
    + by apply (sample_artifact _ ["1"%char; "0"%char]); [| cbn; lia |].
    + by apply (sample_artifact _ ["1"%char]); [| cbn; lia |].
    + vm_compute in Hm. discriminate Hm.
  - reflexivity.
  - exists paths. split; [done|]. split.
    + apply Hstrict. vm_compute.
      repeat (apply NoDup_cons; split;
              [intros Hin;
               repeat (apply elem_of_cons in Hin as [Hin|Hin]; [discriminate Hin|]);
               by apply elem_of_nil in Hin|]).
      apply NoDup_nil_2.
    + vm_compute in Hp. injection Hp as <-. reflexivity.
Defined.

(** C4, as stated, fails on [01.json] and [1.json]: both are page files,
    both carry the number 1, and the order in which the merge reads them is
    not strictly ascending. *)
Lemma merge_order_not_strict :
  is_artifact MergeSamples.p01 ∧ is_artifact MergeSamples.p1 ∧
  ∃ paths,
    ordered_json_paths [MergeSamples.p01; MergeSamples.p1] = Ok paths ∧
    ¬ strictly_ascending paths.
Proof.
  split; [by apply (sample_artifact _ ["0"%char; "1"%char]); [| cbn; lia |]|].
  split; [by apply (sample_artifact _ ["1"%char]); [| cbn; lia |]|].
  eexists. split; [reflexivity|].
  unfold strictly_ascending. vm_compute (page_number <$> _).
  intros Hs. apply StronglySorted_inv in Hs as [_ Hs].
  apply Forall_cons in Hs as [Hs _]. lia.
Qed.

(** C9, as the code has it. The merge never raises: it returns [True]
    when the scan, every read and the write succeed, and the destination
    then holds the merged records; it returns [False] otherwise. A failure
    before the destination is opened, or a failure to open it, leaves every
    file as it was; a failure while writing leaves the destination
    truncated, with the part written before the failure. *)
Theorem join_reports_failure (iterdir : result (list dir_entry)) (w : world)
    (dest_dir dest_name : string) (fs : store) :
  let run := join_data_files iterdir w dest_dir dest_name in
  (∃ b, outcome run = Ok b) ∧
  (outcome run = Ok true ↔
   ∃ data, grouped_data iterdir = Ok data ∧ disk w dest_dir dest_name = Accepts) ∧
  (∀ data, grouped_data iterdir = Ok data ∧ disk w dest_dir dest_name = Accepts →
           apply_writes (writes run) fs !! (dest_dir, dest_name)
           = Some (Dumped (JArr data))) ∧
  (is_ok (grouped_data iterdir) = false ∨ disk w dest_dir dest_name = OpenFails →
   apply_writes (writes run) fs = fs) ∧
  (∀ data n, grouped_data iterdir = Ok data ∧ disk w dest_dir dest_name = WriteFails n →
             apply_writes (writes run) fs !! (dest_dir, dest_name)
             = Some (Torn (JArr data) n)).
Proof.
  cbv zeta. rewrite join_data_files_cases.
  destruct (grouped_data iterdir) as [data|e];
    destruct (disk w dest_dir dest_name) eqn:Hd;
    cbn [outcome writes apply_writes apply_write fold_left is_ok].
  all: split; [by eexists|].
  all: split; [split; [try done; by eauto|by intros (? & ? & ?)]|].
  all: split; [intros ? [? ?]; simplify_eq; by rewrite lookup_insert_eq|].
  all: split; [intros [?|?]; simplify_eq; done|].
  all: intros ? ? [? ?]; simplify_eq; by rewrite lookup_insert_eq.
Qed.

Lemma join_reports_failure_witness :
  apply_writes
    (writes (join_data_files (Ok [MergeSamples.p1]) MergeSamples.failing_disk
               "data" "dataset.json"))
    MergeSamples.earlier
  !! ("data", "dataset.json")
  = Some (Torn (JArr [JStr "first page"]) 10).
Proof.
  refine (proj2 (proj2 (proj2 (proj2
            (join_reports_failure (Ok [MergeSamples.p1]) MergeSamples.failing_disk
               "data" "dataset.json" MergeSamples.earlier))))
          [JStr "first page"] 10%nat _).
  split; vm_compute; reflexivity.
Defined.

(** C9, as stated, fails: the destination holds an earlier merge, the write
    breaks off after ten characters; the merge returns [False] and the
    destination holds those ten characters instead of the earlier merge. *)
Lemma failed_write_truncates_destination : ¬ failure_keeps_destination.
Proof.
  intros H.
  specialize (H (Ok [MergeSamples.p1]) MergeSamples.failing_disk "data" "dataset.json"
                MergeSamples.earlier eq_refl).
  rewrite join_data_files_cases in H.
  assert (grouped_data (Ok [MergeSamples.p1]) = Ok [JStr "first page"]) as Hg
    by reflexivity.
  rewrite Hg in H. cbn [disk MergeSamples.failing_disk writes apply_writes apply_write fold_left] in H.
  rewrite lookup_insert_eq in H. unfold MergeSamples.earlier in H.
  by rewrite lookup_singleton_eq in H.
Qed.

(** ** The two runs *)

(** C3. In the first run the serializer is meant to receive the retrieved
    pages only. With one planned page whose fetch cannot connect in either
    run, the first run hands the failed outcome to [serialize_results],
    which writes [1.json] holding an empty list; the second run, which
    filters on the success flag, writes nothing. *)
Theorem first_run_serializes_failed_page :
  is_ok_idx (fetched (Samples.sp 50) Samples.unreachable 1) = false ∧
  two_runs 1 (Samples.sp 50) Samples.unreachable Samples.unreachable
  = IO [Store "data" "1.json" Empty; Store "data" "1.json" (Dumped (JArr []))]
       (Ok (0, 0, [build_book_page_url (Samples.sp 50) 1])).
Proof. split; reflexivity. Qed.

(** *** File names *)

Lemma pretty_N_go_nonempty (x : N) (s : string) : s ≠ "" → pretty_N_go x s ≠ "".
Proof.
  revert s. induction (N.lt_wf_0 x) as [x _ IH]; intros s Hs.
  assert (x = 0 ∨ 0 < x)%N as [->|Hpos] by lia.
  - by rewrite pretty_N_go_0.
  - rewrite pretty_N_go_step by done. apply IH; [by apply N.div_lt|done].
Qed.

Lemma pretty_page_nonempty (p : Z) : 0 < p → pretty p ≠ "".
Proof.
  destruct p as [|p|p]; try lia. intros _.
  unfold pretty, pretty_Z, pretty, pretty_positive, pretty, pretty_N.
  case_decide; [done|].
  rewrite pretty_N_go_step by lia. by apply pretty_N_go_nonempty.
Qed.

Lemma page_num_of_built_url (sp : ScraperParams) (p : Z) :
  0 < p → page_num_from_url (build_book_page_url sp p) = Ok (pretty p).
Proof.
  intros Hp. apply pretty_page_nonempty in Hp.
  apply String.eqb_neq in Hp. cbn. by rewrite Hp.
Qed.

Lemma artifact_name_inj (p q : Z) : artifact_name p = artifact_name q → p = q.
Proof.
  unfold artifact_name. intros H.
  apply (f_equal String.list_ascii_of_string) in H. rewrite !list_of_append in H.
  apply app_inj_2 in H as [H _]; [|done].
  apply (f_equal String.string_of_list_ascii) in H.
  rewrite !String.string_of_list_ascii_of_string in H.
  by apply (inj pretty).
Qed.

Lemma cover_name_not_artifact (isbn : string) (p : Z) :
  isbn +:+ ".jpeg" ≠ artifact_name p.
Proof.
  unfold artifact_name. intros H.
  apply (f_equal String.list_ascii_of_string) in H. rewrite !list_of_append in H.
  apply app_inj_2 in H as [_ H]; [|done]. discriminate H.
Qed.

(** *** The store after a list of writes *)

Lemma apply_writes_lookup (ws : list write) (fs : store) (k : string * string) :
  apply_writes ws fs !! k = from_option Some (fs !! k) (last_store k ws).
Proof.
  revert fs. induction ws as [|[dir name c] ws IH]; intros fs; [done|].
  cbn. unfold apply_writes in IH. rewrite IH.
  destruct (last_store k ws); [done|]. cbn.
  case_decide as Hk.
  - subst k. cbn. by rewrite lookup_insert_eq.
  - by rewrite lookup_insert_ne.
Qed.

Lemma last_store_app (k : string * string) (ws1 ws2 : list write) :
  last_store k (ws1 ++ ws2)
  = from_option Some (last_store k ws1) (last_store k ws2).
Proof.
  induction ws1 as [|w ws1 IH]; cbn; [by destruct (last_store k ws2)|].
  rewrite IH. by destruct (last_store k ws2).
Qed.

Lemma last_store_none (k : string * string) (ws : list write) :
  Forall (λ w, write_key w ≠ k) ws → last_store k ws = None.
Proof.
  induction 1 as [|w ws Hw _ IH]; cbn; [done|]. rewrite IH. by case_decide.
Qed.

Lemma last_store_some (k : string * string) (ws : list write) (c : content) :
  last_store k ws = Some c → ∃ w, w ∈ ws ∧ write_key w = k ∧ write_content w = c.
Proof.
  induction ws as [|w ws IH]; cbn; [done|].
  destruct (last_store k ws) as [c'|].
  - intros [= <-]. destruct IH as (w' & ? & ? & ?); [done|].
    exists w'. split; [by right|done].
  - case_decide; [|done]. intros [= <-]. exists w. split; [by left|done].
Qed.

(** The writes of one page under [serialize_results]. *)
Lemma last_store_pages (dir : string) (c : Z → content) (ps : list Z) (p0 : Z) :
  last_store (dir, artifact_name p0)
    (ps ≫= λ p, [Store dir (artifact_name p) Empty; Store dir (artifact_name p) (c p)])
  = if decide (p0 ∈ ps) then Some (c p0) else None.
Proof.
  induction ps as [|p ps IH]; [done|].
  rewrite bind_cons, last_store_app, IH.
  destruct (decide (p0 ∈ ps)) as [Hin|Hnin].
  - cbn. rewrite decide_True; [done|by right].
  - cbn. destruct (decide (p = p0)) as [->|Hne].
    + by rewrite !decide_True by (done || by left).
    + by rewrite !decide_False
        by first [ by intros [= ?%artifact_name_inj]
                 | intros [?|?]%elem_of_cons; by simplify_eq ].
Qed.

(** *** Everything a fetch writes is a cover *)

Lemma retrieve_cover_writes (url : string) (params : ScraperParams) (w : world) :
  Forall is_cover_write (writes (retrieve_cover url params w)).
Proof.
  rewrite retrieve_cover_cases.
  destruct (cover_get w url) as [e|r]; [by destruct e|].
  destruct (status r =? 200); [|done].
  destruct (index_from_end (split "/" url) 2) as [isbn|e]; [|done].
  cbv zeta.
  destruct (disk w (cover_img_dir params) (isbn +:+ ".jpeg"));
    destruct (body_bytes r) as [bytes|e]; try done; try destruct e; cbn;
    repeat constructor; by exists isbn.
Qed.

Lemma page_loop_writes (products : list json) (params : ScraperParams) (w : world)
    (elems : list (json * Z)) :
  Forall is_cover_write (writes (page_loop products params w elems).2).
Proof.
  revert elems. induction products as [|prod rest IH]; intros elems; [done|].
  cbn [page_loop].
  destruct (extract_data prod) as [data|e]; [|done].
  destruct (dict_get data "cover_image") as [base_url|e]; [|done].
  pose proof (retrieve_cover_writes (build_cover_img_url base_url) params w) as Hc.
  destruct (outcome (retrieve_cover (build_cover_img_url base_url) params w)); [|done].
  specialize (IH (elems ++ [(data, Z.b2z a)])).
  destruct (page_loop rest params w (elems ++ [(data, Z.b2z a)])) as [elems' tail].
  cbn in *. by apply Forall_app.
Qed.

Lemma retrieve_book_page_writes (url : search_url) (params : ScraperParams) (w : world) :
  Forall is_cover_write (writes (retrieve_book_page url params w)).
Proof.
  unfold retrieve_book_page.
  destruct (search_get w url) as [e|r]; [by destruct e|].
  destruct (body_json r ≫= _) as [products|e]; [|by destruct e].
  pose proof (page_loop_writes products params w []) as Hl.
  destruct (page_loop products params w []) as [elems loop]. cbn in Hl.
  destruct (outcome loop) as [[]|e]; [done|]. by destruct e.
Qed.

Lemma main_writes (urls : list search_url) (params : ScraperParams) (w : world) :
  Forall is_cover_write (writes (main urls params w)).
Proof.
  induction urls as [|url urls IH]; [done|].
  cbn [main]. rewrite writes_bind. apply Forall_app.
  split; [apply retrieve_book_page_writes|].
  destruct (outcome (retrieve_book_page url params w)); [|done].
  rewrite writes_bind. apply Forall_app. split; [done|].
  by destruct (outcome (main urls params w)).
Qed.

Lemma cover_writes_miss_artifacts (ws : list write) (dir : string) (p : Z) :
  Forall is_cover_write ws → last_store (dir, artifact_name p) ws = None.
Proof.
  intros H. apply last_store_none. eapply Forall_impl; [exact H|].
  intros [d name c] [isbn Hname] [= _ Hk]. cbn in Hname. subst name.
  by apply cover_name_not_artifact in Hk.
Qed.

(** *** The serializer *)

Lemma io_bind_ext {A B} (m : io A) (f g : A → io B) :
  (∀ a, outcome m = Ok a → f a = g a) → m ≫= f = m ≫= g.
Proof.
  intros H. unfold mbind, io_bind.
  destruct (outcome m) as [a|e]; [|done]. by rewrite (H a).
Qed.

Lemma serialize_results_cons (res : list (json * Z)) (url : search_url) (ok : bool)
    (rest : list page_result) (sp : ScraperParams) (w : world) (b c : Z)
    (page_num : string) :
  page_num_from_url url = Ok page_num →
  let name := page_num +:+ ".json" in
  let tail := serialize_results rest sp w
                (b + Z.of_nat (length res.*1)) (c + py_sum res.*2) in
  serialize_results ((res, url, ok) :: rest) sp w b c =
  match disk w (json_dir sp) name with
  | Accepts =>
      IO ([Store (json_dir sp) name Empty;
           Store (json_dir sp) name (Dumped (JArr res.*1))] ++ writes tail)
         (outcome tail)
  | OpenFails => IO [] (Raise OSError)
  | WriteFails n =>
      IO [Store (json_dir sp) name Empty; Store (json_dir sp) name (Torn (JArr res.*1) n)]
         (Raise OSError)
  end.
Proof.
  intros Hnum. cbn [serialize_results]. rewrite Hnum.
  unfold open_w, fill, lift, emit, raise, mbind, io_bind.
  cbn [outcome writes app].
  destruct (disk w (json_dir sp) (page_num +:+ ".json"));
    cbn [outcome writes app mret io_ret]; done.
Qed.

Lemma serialize_results_returns (f : Z → page_result) (ps : list Z)
    (sp : ScraperParams) (w : world) (b c b' c' : Z) :
  Forall (λ p, 0 < p ∧ url_idx (f p) = build_book_page_url sp p) ps →
  outcome (serialize_results (f <$> ps) sp w b c) = Ok (b', c') →
  b' = b + py_sum ((λ p, Z.of_nat (length (f p).1.1)) <$> ps) ∧
  c' = c + py_sum ((λ p, py_sum (f p).1.1.*2) <$> ps) ∧
  writes (serialize_results (f <$> ps) sp w b c) = ps ≫= page_writes sp f.
Proof.
  intros Hps. revert b c.
  induction Hps as [|p ps [Hpos Hurl] _ IH]; intros b c.
  { cbn. intros [= <- <-]. unfold py_sum. cbn. split; [lia|]. split; [lia|done]. }
  rewrite fmap_cons.
  destruct (f p) as [[res url] ok] eqn:Hf. cbn in Hurl. subst url.
  rewrite (serialize_results_cons _ _ _ _ _ _ _ _ (pretty p))
    by by apply page_num_of_built_url.
  cbv zeta. fold (artifact_name p).
  destruct (disk w (json_dir sp) (artifact_name p)); cbn [outcome writes]; [|done..].
  intros Htail. apply IH in Htail as (-> & -> & ->).
  rewrite bind_cons. unfold page_writes at 2. rewrite Hf.
  rewrite !fmap_cons. unfold py_sum. cbn. rewrite Hf. cbn.
  rewrite length_fmap. split; [lia|]. split; [lia|done].
Qed.

(** *** The outcomes of a batch *)

Lemma main_fetched (sp : ScraperParams) (w : world) (ps : list Z)
    (results : list page_result) :
  outcome (main (build_book_page_url sp <$> ps) sp w) = Ok results →
  results = fetched sp w <$> ps.
Proof.
  revert results. induction ps as [|p ps IH]; intros results.
  { cbn. by intros [= <-]. }
  rewrite fmap_cons, main_cons.
  destruct (outcome (retrieve_book_page (build_book_page_url sp p) sp w)) as [r|] eqn:Hr;
    [|done].
  destruct (outcome (main (build_book_page_url sp <$> ps) sp w)) as [rs|]; [|done].
  intros [= <-]. rewrite fmap_cons. f_equal; [|by apply IH].
  unfold fetched. by rewrite Hr.
Qed.

Lemma fetched_url (sp : ScraperParams) (w : world) (p : Z) :
  url_idx (fetched sp w p) = build_book_page_url sp p.
Proof.
  unfold fetched.
  destruct (outcome (retrieve_book_page (build_book_page_url sp p) sp w))
    as [[[res url] ok]|] eqn:Hr; [|done].
  by apply retrieve_book_page_returns in Hr as (-> & _).
Qed.

Lemma fetched_failed_empty (sp : ScraperParams) (w : world) (p : Z) :
  is_ok_idx (fetched sp w p) = false → (fetched sp w p).1.1 = [].
Proof.
  unfold fetched.
  destruct (outcome (retrieve_book_page (build_book_page_url sp p) sp w))
    as [[[res url] ok]|] eqn:Hr; [|done].
  apply retrieve_book_page_returns in Hr as (_ & Hfail & _). cbn. auto.
Qed.

Lemma filter_fmap_pages {B} (f : Z → B) (P : B → Prop) `{!∀ x, Decision (P x)}
    (ps : list Z) :
  filter P (f <$> ps) = f <$> filter (λ p, P (f p)) ps.
Proof.
  induction ps as [|p ps IH]; [done|].
  rewrite fmap_cons, !filter_cons, IH. by case_decide.
Qed.

Lemma fetched_urls (sp : ScraperParams) (w : world) (ps : list Z) :
  url_idx <$> (fetched sp w <$> ps) = build_book_page_url sp <$> ps.
Proof.
  rewrite <- list_fmap_compose. apply list_fmap_ext. intros _ p _. apply fetched_url.
Qed.

Lemma second_run_returns (sp : ScraperParams) (w : world) (ms : list Z)
    (b1 c1 b c : Z) (missing : list search_url) :
  Forall (λ p, 0 < p) ms →
  outcome (second_run (build_book_page_url sp <$> ms) sp w b1 c1) = Ok (b, c, missing) →
  let oks := filter (λ p, is_ok_idx (fetched sp w p) = true) ms in
  b = b1 + py_sum ((λ p, Z.of_nat (length (fetched sp w p).1.1)) <$> oks) ∧
  c = c1 + py_sum ((λ p, py_sum (fetched sp w p).1.1.*2) <$> oks) ∧
  missing = build_book_page_url sp
              <$> filter (λ p, is_ok_idx (fetched sp w p) = false) ms ∧
  writes (second_run (build_book_page_url sp <$> ms) sp w b1 c1)
  = writes (main (build_book_page_url sp <$> ms) sp w)
    ++ (oks ≫= page_writes sp (fetched sp w)).
Proof.
  intros Hms. unfold second_run. rewrite outcome_bind, writes_bind.
  destruct (outcome (main (build_book_page_url sp <$> ms) sp w)) as [results|] eqn:Hm;
    [|done].
  apply main_fetched in Hm as ->. cbv zeta.
  rewrite !filter_fmap_pages, fetched_urls.
  rewrite outcome_bind, writes_bind.
  set (oks := filter (λ p, is_ok_idx (fetched sp w p) = true) ms).
  destruct (outcome (serialize_results (fetched sp w <$> oks) sp w b1 c1))
    as [[b' c']|] eqn:Hs; [|done].
  cbn. intros [= <- <- <-].
  apply serialize_results_returns in Hs as (-> & -> & ->).
  - by rewrite app_nil_r.
  - apply Forall_forall. intros p [_ Hp]%list_elem_of_filter.
    rewrite Forall_forall in Hms. split; [by apply Hms|apply fetched_url].
Qed.

Lemma second_run_nil (sp : ScraperParams) (w : world) (b c : Z) :
  second_run [] sp w b c = IO [] (Ok (b, c, [])).
Proof. reflexivity. Qed.

(** Counting each page once: the records of the first run, which are none
    for a page that failed, and those of the pages the second run
    retrieved. *)
Lemma sum_kept (ok1 ok2 : Z → bool) (g1 g2 : Z → Z) (ps : list Z) :
  (∀ p, ok1 p = false → g1 p = 0) →
  py_sum (g1 <$> ps)
  + py_sum (g2 <$> filter (λ p, ok2 p = true) (filter (λ p, ok1 p = false) ps))
  = py_sum ((λ p, if ok1 p then g1 p else if ok2 p then g2 p else 0) <$> ps).
Proof.
  intros Hg. unfold py_sum. induction ps as [|p ps IH]; [done|].
  rewrite !fmap_cons, filter_cons. cbn [foldr].
  destruct (ok1 p) eqn:H1.
  - rewrite decide_False by done. lia.
  - rewrite decide_True by done. rewrite filter_cons.
    rewrite (Hg p H1). destruct (ok2 p) eqn:H2.
    + rewrite decide_True by done. rewrite fmap_cons. cbn [foldr]. lia.
    + rewrite decide_False by done. lia.
Qed.

(** What the script has done when it returns: the counts, the pages still
    missing, and its writes in order. *)
Lemma two_runs_returns (n : Z) (sp : ScraperParams) (w1 w2 : world)
    (b c : Z) (missing : list search_url) :
  outcome (two_runs n sp w1 w2) = Ok (b, c, missing) →
  let ps := seqZ 1 n in
  let ms := filter (λ p, is_ok_idx (fetched sp w1 p) = false) ps in
  let oks := filter (λ p, is_ok_idx (fetched sp w2 p) = true) ms in
  b = py_sum ((λ p, Z.of_nat (length (fetched sp w1 p).1.1)) <$> ps)
      + py_sum ((λ p, Z.of_nat (length (fetched sp w2 p).1.1)) <$> oks) ∧
  c = py_sum ((λ p, py_sum (fetched sp w1 p).1.1.*2) <$> ps)
      + py_sum ((λ p, py_sum (fetched sp w2 p).1.1.*2) <$> oks) ∧
  missing = build_book_page_url sp
              <$> filter (λ p, is_ok_idx (fetched sp w2 p) = false) ms ∧
  ∃ covers1 covers2,
    Forall is_cover_write covers1 ∧ Forall is_cover_write covers2 ∧
    writes (two_runs n sp w1 w2)
    = covers1 ++ (ps ≫= page_writes sp (fetched sp w1))
      ++ covers2 ++ (oks ≫= page_writes sp (fetched sp w2)).
Proof.
  intros H. cbv zeta.
  set (ps := seqZ 1 n) in *.
  set (ms := filter (λ p, is_ok_idx (fetched sp w1 p) = false) ps).
  assert (Forall (λ p, 0 < p) ps) as Hpos.
  { apply Forall_forall. intros p Hp%elem_of_seqZ. lia. }
  unfold two_runs in *. cbv zeta in *. fold ps in H |- *.
  rewrite outcome_bind in H. rewrite writes_bind.
  destruct (outcome (main (build_book_page_url sp <$> ps) sp w1)) as [results|] eqn:Hm;
    [|done].
  pose proof (main_fetched _ _ _ _ Hm) as ->.
  rewrite filter_fmap_pages, fetched_urls in H |- *. fold ms in H |- *.
  rewrite outcome_bind in H. rewrite writes_bind.
  destruct (outcome (serialize_results (fetched sp w1 <$> ps) sp w1 0 0))
    as [[b1 c1]|] eqn:Hs; [|done].
  apply serialize_results_returns in Hs as (-> & -> & ->).
  2:{ eapply Forall_impl; [exact Hpos|]. intros p Hp. split; [done|apply fetched_url]. }
  assert (match build_book_page_url sp <$> ms with
          | [] => mret (0 + py_sum ((λ p, Z.of_nat (length (fetched sp w1 p).1.1)) <$> ps),
                        0 + py_sum ((λ p, py_sum (fetched sp w1 p).1.1.*2) <$> ps),
                        build_book_page_url sp <$> ms)
          | _ => second_run (build_book_page_url sp <$> ms) sp w2
                   (0 + py_sum ((λ p, Z.of_nat (length (fetched sp w1 p).1.1)) <$> ps))
                   (0 + py_sum ((λ p, py_sum (fetched sp w1 p).1.1.*2) <$> ps))
          end
          = second_run (build_book_page_url sp <$> ms) sp w2
              (0 + py_sum ((λ p, Z.of_nat (length (fetched sp w1 p).1.1)) <$> ps))
              (0 + py_sum ((λ p, py_sum (fetched sp w1 p).1.1.*2) <$> ps))) as Hsecond.
  { destruct (build_book_page_url sp <$> ms); [|done]. by rewrite second_run_nil. }
  cbn beta iota in H |- *. rewrite Hsecond in H |- *. clear Hsecond.
  apply second_run_returns in H as (-> & -> & -> & ->).
  2:{ apply Forall_forall. intros p [_ Hp]%list_elem_of_filter.
      rewrite Forall_forall in Hpos. by apply Hpos. }
  split; [lia|]. split; [lia|]. split; [done|].
  exists (writes (main (build_book_page_url sp <$> ps) sp w1)),
         (writes (main (build_book_page_url sp <$> ms) sp w2)).
  split; [apply main_writes|]. split; [apply main_writes|]. done.
Qed.

Lemma last_store_page_writes (sp : ScraperParams) (f : Z → page_result)
    (ps : list Z) (p0 : Z) :
  last_store (json_dir sp, artifact_name p0) (ps ≫= page_writes sp f)
  = if decide (p0 ∈ ps) then Some (Dumped (JArr (f p0).1.1.*1)) else None.
Proof.
  apply (last_store_pages (json_dir sp) (λ p, Dumped (JArr (f p).1.1.*1))).
Qed.

Lemma kept_cases (sp : ScraperParams) (w1 w2 : world) (p : Z) :
  kept sp w1 w2 p =
  if decide (is_ok_idx (fetched sp w1 p) = false ∧ is_ok_idx (fetched sp w2 p) = true)
  then (fetched sp w2 p).1.1 else (fetched sp w1 p).1.1.
Proof.
  unfold kept.
  destruct (is_ok_idx (fetched sp w1 p)) eqn:H1.
  { rewrite decide_False; [done|]. by intros [? _]. }
  destruct (is_ok_idx (fetched sp w2 p)) eqn:H2.
  - by rewrite decide_True.
  - rewrite decide_False by (by intros [_ ?]).
    by rewrite fetched_failed_empty.
Qed.

(** The artifact of a planned page after the script has returned. *)
Lemma two_runs_artifact (n : Z) (sp : ScraperParams) (w1 w2 : world)
    (b c : Z) (missing : list search_url) (fs : store) (p : Z) :
  outcome (two_runs n sp w1 w2) = Ok (b, c, missing) →
  p ∈ seqZ 1 n →
  apply_writes (writes (two_runs n sp w1 w2)) fs !! (json_dir sp, artifact_name p)
  = Some (Dumped (JArr (kept sp w1 w2 p).*1)).
Proof.
  intros H Hp.
  destruct (two_runs_returns _ _ _ _ _ _ _ H)
    as (_ & _ & _ & covers1 & covers2 & Hc1 & Hc2 & ->).
  rewrite apply_writes_lookup, !last_store_app, !last_store_page_writes.
  rewrite !cover_writes_miss_artifacts by done.
  rewrite (decide_True (P := p ∈ seqZ 1 n)) by done.
  rewrite kept_cases. cbn.
  destruct (decide (is_ok_idx (fetched sp w1 p) = false
                    ∧ is_ok_idx (fetched sp w2 p) = true)) as [[H1 H2]|Hno].
  - rewrite decide_True; [done|].
    apply list_elem_of_filter. split; [done|]. by apply list_elem_of_filter.
  - rewrite decide_False; [done|].
    intros [H2 [H1 _]%list_elem_of_filter]%list_elem_of_filter. by apply Hno.
Qed.

Lemma fmap_ext_in {B} (f g : Z → B) (ps : list Z) :
  (∀ p, p ∈ ps → f p = g p) → f <$> ps = g <$> ps.
Proof.
  intros H. apply list_fmap_ext. intros i p Hi. apply H.
  by eapply list_elem_of_lookup_2.
Qed.

(** C2. When the script returns after its two runs, every planned page has
    one artifact, holding the records of the outcome kept for the page;
    [book_count] is the number of records in these artifacts and
    [cover_count] the number of covers fetched for them, each page counted
    once; a page still missing failed in both runs and its artifact holds no
    record; and no other page file is written. *)
Theorem two_runs_count_each_page_once (n : Z) (sp : ScraperParams) (w1 w2 : world)
    (b c : Z) (missing : list search_url) (fs : store) :
  outcome (two_runs n sp w1 w2) = Ok (b, c, missing) →
  let artifact p :=
    apply_writes (writes (two_runs n sp w1 w2)) fs !! (json_dir sp, artifact_name p) in
  (∀ p, p ∈ seqZ 1 n → artifact p = Some (Dumped (JArr (kept sp w1 w2 p).*1))) ∧
  b = py_sum ((λ p, records_in (artifact p)) <$> seqZ 1 n) ∧
  c = py_sum ((λ p, py_sum (kept sp w1 w2 p).*2) <$> seqZ 1 n) ∧
  (∀ url, url ∈ missing →
     ∃ p, p ∈ seqZ 1 n ∧ url = build_book_page_url sp p ∧
          is_ok_idx (fetched sp w1 p) = false ∧ is_ok_idx (fetched sp w2 p) = false ∧
          records_in (artifact p) = 0) ∧
  Forall (λ w, is_cover_write w ∨ is_page_write sp n w) (writes (two_runs n sp w1 w2)).
Proof.
  intros H. cbv zeta.
  pose proof (λ p, two_runs_artifact n sp w1 w2 b c missing fs p H) as Hart.
  destruct (two_runs_returns _ _ _ _ _ _ _ H)
    as (Hb & Hc & Hmiss & covers1 & covers2 & Hc1 & Hc2 & Hw).
  cbv zeta in *.
  split; [done|]. split; [|split; [|split]].
  - rewrite Hb, (sum_kept (λ p, is_ok_idx (fetched sp w1 p))
                          (λ p, is_ok_idx (fetched sp w2 p))).
    2:{ intros p Hp. by rewrite fetched_failed_empty. }
    f_equal. apply fmap_ext_in. intros p Hp. rewrite Hart by done.
    cbn. rewrite length_fmap. unfold kept.
    by repeat case_match.
  - rewrite Hc, (sum_kept (λ p, is_ok_idx (fetched sp w1 p))
                          (λ p, is_ok_idx (fetched sp w2 p))).
    2:{ intros p Hp. by rewrite fetched_failed_empty. }
    f_equal. apply fmap_ext_in. intros p Hp. unfold kept.
    by repeat case_match.
  - intros url Hurl. rewrite Hmiss in Hurl.
    apply list_elem_of_fmap in Hurl as (p & -> & Hp).
    apply list_elem_of_filter in Hp as [H2 Hp].
    apply list_elem_of_filter in Hp as [H1 Hp].
    exists p. repeat split; try done.
    rewrite Hart by done. unfold kept. by rewrite H1, H2.
  - rewrite Hw. repeat apply Forall_app_2.
    + eapply Forall_impl; [exact Hc1|]. by left.
    + apply Forall_forall. intros w (p & Hin & Hp)%list_elem_of_bind. right.
      exists p. split; [done|].
      unfold page_writes in Hin.
      apply elem_of_cons in Hin as [->|Hin]; [done|].
      by apply list_elem_of_singleton in Hin as ->.
    + eapply Forall_impl; [exact Hc2|]. by left.
    + apply Forall_forall. intros w (p & Hin & Hp)%list_elem_of_bind. right.
      apply list_elem_of_filter in Hp as [_ Hp].
      apply list_elem_of_filter in Hp as [_ Hp].
      exists p. split; [done|].
      unfold page_writes in Hin.
      apply elem_of_cons in Hin as [->|Hin]; [done|].
      by apply list_elem_of_singleton in Hin as ->.
Qed.

Lemma two_runs_count_each_page_once_witness :
  outcome (two_runs 2 (Samples.sp 50) (Samples.page_unreachable "2")
             (Samples.three_books "222"))
  = Ok (6, 4, []) ∧
  6 = py_sum
        ((λ p, records_in
                 (apply_writes
                    (writes (two_runs 2 (Samples.sp 50) (Samples.page_unreachable "2")
                               (Samples.three_books "222"))) ∅
                  !! (json_dir (Samples.sp 50), artifact_name p)))
           <$> seqZ 1 2).
Proof.
  assert (outcome (two_runs 2 (Samples.sp 50) (Samples.page_unreachable "2")
                     (Samples.three_books "222"))
          = Ok (6, 4, [])) as H by (vm_compute; reflexivity).
  split; [exact H|].
  destruct (two_runs_count_each_page_once 2 (Samples.sp 50)
              (Samples.page_unreachable "2") (Samples.three_books "222")
              6 4 [] ∅ H) as (_ & Hb & _).
  exact Hb.
Defined.

(** A page that fails in both runs: it is reported missing, and the counts
    are those of the other page. *)
Example page_missing_in_both_runs :
  outcome (two_runs 2 (Samples.sp 50) (Samples.page_unreachable "2")
             (Samples.page_unreachable "2"))
  = Ok (3, 2, [build_book_page_url (Samples.sp 50) 2]).
Proof. vm_compute. reflexivity. Qed.

(** * Further properties of the code *)

(** ** ScraperParams: building and reading a search URL *)

Lemma pretty_Z_nonempty (p : Z) : pretty p ≠ "".
Proof.
  destruct p as [|p|p].
  - done.
  - by apply pretty_page_nonempty.
  - unfold pretty, pretty_Z. intros H.
    apply (f_equal String.list_ascii_of_string) in H.
    rewrite list_of_append in H. discriminate H.
Qed.

(** X1. The page number read back from a URL built for page [p] is the
    decimal text of [p], for every integer [p]; and URLs built for
    different pages differ. *)
Theorem page_url_round_trip (sp : ScraperParams) (p q : Z) :
  page_num_from_url (build_book_page_url sp p) = Ok (pretty p) ∧
  (build_book_page_url sp p = build_book_page_url sp q → p = q).
Proof.
  split.
  - pose proof (pretty_Z_nonempty p) as Hp. apply String.eqb_neq in Hp.
    cbn. by rewrite Hp.
  - unfold build_book_page_url. intros [= H]. by apply (inj pretty).
Qed.

(** X2. [page_num_from_url] returns the first non-blank value given for
    [page]: the value is not blank, and every value given for [page] before
    it in the URL is blank. When the URL gives no such value it raises
    [KeyError], and nothing else. *)
Theorem page_num_from_url_cases (url : search_url) :
  match page_num_from_url url with
  | Ok v =>
      v ≠ "" ∧
      ∃ before after,
        url = before ++ ("page", v) :: after ∧
        ∀ v', ("page", v') ∈ before → v' = ""
  | Raise e => e = KeyError "page" ∧ ∀ v, ("page", v) ∈ url → v = ""
  end.
Proof.
  induction url as [|[k v] url IH]; cbn.
  { split; [done|]. intros v Hv. by apply elem_of_nil in Hv. }
  destruct (String.eqb_spec k "page") as [->|Hk]; cbn.
  - destruct (String.eqb_spec v "") as [->|Hv]; cbn.
    + destruct (page_num_from_url url) as [v'|e].
      * destruct IH as (Hne & before & after & -> & Hblank). split; [done|].
        exists (("page", "") :: before), after. split; [done|].
        intros v [[= ->]|Hin]%elem_of_cons; [done|by apply Hblank].
      * destruct IH as [-> Hall]. split; [done|].
        intros v [[= ->]|Hin]%elem_of_cons; [done|by apply Hall].
    + split; [done|]. exists [], url. split; [done|].
      intros v' Hin. by apply elem_of_nil in Hin.
  - destruct (page_num_from_url url) as [v'|e].
    + destruct IH as (Hne & before & after & -> & Hblank). split; [done|].
      exists ((k, v) :: before), after. split; [done|].
      intros v'' [[= ? ?]|Hin]%elem_of_cons; [done|by apply Hblank].
    + destruct IH as [-> Hall]. split; [done|].
      intros v' [[= ? ?]|Hin]%elem_of_cons; [done|by apply Hall].
Qed.

(** Two values for [page]: the first one is returned. *)
Example page_num_from_url_first :
  page_num_from_url [("page", ""); ("page", "7"); ("q", "*"); ("page", "8")] = Ok "7".
Proof. reflexivity. Qed.

(** ** Extraction *)

(** X3. The extraction of a product succeeds exactly when the product is
    a dict whose [custom_attributes] is a dict holding the four custom
    fields; the record then has the twelve fields, in the order of the two
    field lists, whatever else the product holds. *)
Theorem extract_data_succeeds_iff (prod : json) :
  (is_ok (extract_data prod) = true ↔
   ∃ items attrs,
     prod = JObj items ∧ assoc "custom_attributes" items = Some (JObj attrs) ∧
     Forall (λ f, is_Some (assoc f attrs)) custom_attr_fields) ∧
  (∀ data, extract_data prod = Ok data →
           ∃ fields, data = JObj fields ∧ fields.*1 = base_fields ++ custom_attr_fields).
Proof.
  assert (is_ok (extract_data prod) = true →
          ∃ items attrs,
            prod = JObj items ∧ assoc "custom_attributes" items = Some (JObj attrs) ∧
            Forall (λ f, is_Some (assoc f attrs)) custom_attr_fields) as Hto.
  { destruct prod as [| | | | | |items]; try done.
    unfold extract_data. cbn.
    destruct (assoc "custom_attributes" items) as [attrs|] eqn:Hca; [|done].
    destruct attrs as [| | | | | |attrs]; try done. cbn.
    destruct (assoc "publication_date" attrs) eqn:H1; [|done]. cbn.
    destruct (assoc "publishers" attrs) eqn:H2; [|done]. cbn.
    destruct (assoc "page_count" attrs) eqn:H3; [|done]. cbn.
    destruct (assoc "average_rating" attrs) eqn:H4; [|done]. cbn.
    intros _. exists items, attrs. split; [done|]. split; [done|].
    unfold custom_attr_fields.
    repeat (apply Forall_cons; split; [by eexists|]). apply Forall_nil_2. }
  split; [split; [exact Hto|]|].
  - intros (items & attrs & -> & Hca & Hall).
    destruct (extract_data_top_level items attrs Hca Hall) as (data & -> & _). done.
  - intros data Hdata.
    destruct Hto as (items & attrs & -> & Hca & Hall); [by rewrite Hdata|].
    destruct (extract_data_top_level items attrs Hca Hall) as (fields & Hf & Hkeys & _).
    rewrite Hf in Hdata. injection Hdata as <-. eauto.
Qed.

(** ** The page fetch: records in response order *)

Lemma page_loop_records (products : list json) (params : ScraperParams) (w : world)
    (elems : list (json * Z)) :
  is_ok (outcome (page_loop products params w elems).2) = true →
  ∃ more,
    (page_loop products params w elems).1 = elems ++ more ∧
    Forall2 (λ prod elem, extract_data prod = Ok elem.1) products more.
Proof.
  revert elems. induction products as [|prod rest IH]; intros elems.
  { intros _. exists []. by rewrite app_nil_r. }
  cbn [page_loop].
  destruct (extract_data prod) as [data|e] eqn:Hx; [|done].
  destruct (dict_get data "cover_image") as [base_url|e]; [|done].
  destruct (outcome (retrieve_cover (build_cover_img_url base_url) params w))
    as [flag|e]; [|done].
  specialize (IH (elems ++ [(data, Z.b2z flag)])).
  destruct (page_loop rest params w (elems ++ [(data, Z.b2z flag)])) as [elems' tail].
  cbn in *. intros Hok. destruct (IH Hok) as (more & -> & Hall).
  exists ((data, Z.b2z flag) :: more). split; [by rewrite <- app_assoc|].
  by constructor.
Qed.

(** X4. When the page request is answered and the fetch returns, the page
    is marked successful and its records are the extractions of the
    products of the response, one per product and in the order of the
    response. *)
Theorem page_records_in_response_order (url : search_url) (params : ScraperParams)
    (w : world) (r : response) (products : list json)
    (res : list (json * Z)) (url' : search_url) (ok : bool) :
  search_get w url = Responds r →
  products_of r = Ok products →
  outcome (retrieve_book_page url params w) = Ok (res, url', ok) →
  ok = true ∧ Forall2 (λ prod elem, extract_data prod = Ok elem.1) products res.
Proof.
  intros Hget Hprods. unfold retrieve_book_page. rewrite Hget.
  unfold products_of in Hprods. rewrite Hprods.
  pose proof (page_loop_records products params w []) as Hrec.
  destruct (page_loop_spec products params w []) as (_ & _ & _ & _ & Hne).
  destruct (page_loop products params w []) as [elems loop]. cbn in Hrec, Hne.
  destruct (outcome loop) as [[]|e]; cbn.
  - intros [= <- <- <-]. destruct Hrec as (more & -> & Hall); done.
  - destruct e; done.
Qed.

Lemma page_records_in_response_order_witness :
  ∃ res,
    outcome (retrieve_book_page (build_book_page_url (Samples.sp 50) 1) (Samples.sp 50)
               (Samples.three_books "222"))
    = Ok (res, build_book_page_url (Samples.sp 50) 1, true) ∧
    Forall2 (λ prod elem, extract_data prod = Ok elem.1)
      [Samples.book "111"; Samples.book "222"; Samples.book "333"] res.
Proof.
  eexists. split; [vm_compute; reflexivity|].
  refine (proj2 (page_records_in_response_order
                   (build_book_page_url (Samples.sp 50) 1) (Samples.sp 50)
                   (Samples.three_books "222") _ _ _ _ _ _ _ _)).
  - vm_compute. reflexivity.
  - vm_compute. reflexivity.
  - vm_compute. reflexivity.
Defined.

(** ** The cover fetch: where the file goes *)

Lemma split_go_plain (sep : ascii) (cur s : string) :
  mentions sep s = false → split_go sep cur s = [String.rev_app cur s].
Proof.
  revert cur. induction s as [|c s IH]; intros cur; [done|].
  cbn. destruct (Ascii.eqb c sep); [done|]. cbn. intros Hs. by rewrite IH.
Qed.

Lemma split_go_sep (sep : ascii) (cur a b : string) :
  split_go sep cur (a +:+ String sep b) = split_go sep cur a ++ split sep b.
Proof.
  revert cur. induction a as [|c a IH]; intros cur.
  - change ("" +:+ String sep b) with (String sep b). cbn.
    by rewrite Ascii.eqb_refl.
  - change (String c a +:+ String sep b) with (String c (a +:+ String sep b)).
    cbn. destruct (Ascii.eqb c sep); [|by rewrite IH].
    by rewrite IH.
Qed.

Lemma index_from_end_isbn (pre isbn last : string) :
  mentions "/" isbn = false → mentions "/" last = false →
  index_from_end (split "/" (pre +:+ String "/" (isbn +:+ String "/" last))) 2
  = Ok isbn.
Proof.
  intros Hi Hl. unfold split. rewrite !split_go_sep. unfold split.
  rewrite split_go_sep. unfold split.
  rewrite (split_go_plain _ _ isbn), (split_go_plain _ _ last) by done.
  cbn [String.rev_app].
  unfold index_from_end. rewrite !rev_app_distr. done.
Qed.

(** X5. A cover whose URL ends in [/<isbn>/<last>] and that arrives with
    status 200 is stored as [<isbn>.jpeg] in the cover folder, holding the
    bytes of the response. *)
Theorem cover_saved_under_isbn (pre isbn last bytes : string) (r : response)
    (params : ScraperParams) (w : world) :
  let url := pre +:+ String "/" (isbn +:+ String "/" last) in
  let name := isbn +:+ ".jpeg" in
  mentions "/" isbn = false → mentions "/" last = false →
  cover_get w url = Responds r → status r = 200 → body_bytes r = Ok bytes →
  disk w (cover_img_dir params) name = Accepts →
  retrieve_cover url params w
  = IO [Store (cover_img_dir params) name Empty;
        Store (cover_img_dir params) name (Raw bytes)] (Ok true).
Proof.
  cbv zeta. intros Hi Hl Hget Hst Hbody Hdisk.
  rewrite retrieve_cover_cases, Hget, Hst, index_from_end_isbn by done.
  cbv zeta. by rewrite Hdisk, Hbody.
Qed.

Lemma cover_saved_under_isbn_witness :
  retrieve_cover "https://learning.oreilly.com/covers/111/500w" (Samples.sp 50)
    (Samples.three_books "222")
  = IO [Store "cover_images" "111.jpeg" Empty;
        Store "cover_images" "111.jpeg" (Raw "JFIF")] (Ok true).
Proof.
  refine (cover_saved_under_isbn "https://learning.oreilly.com/covers" "111" "500w"
            "JFIF" (Samples.image_response 200 "JFIF") (Samples.sp 50)
            (Samples.three_books "222") _ _ _ _ _ _);
    vm_compute; reflexivity.
Defined.

(** X6. A cover URL that holds no [/] (as [None500w], built for a product
    without [cover_image]): whatever the network answers, the cover fetch
    writes no file and does not return [True]. *)
Theorem cover_url_without_slash_writes_nothing (url : string) (params : ScraperParams)
    (w : world) :
  mentions "/" url = false →
  writes (retrieve_cover url params w) = [] ∧
  outcome (retrieve_cover url params w) ≠ Ok true.
Proof.
  intros Hurl. rewrite retrieve_cover_cases.
  destruct (cover_get w url) as [e|r]; [by destruct e|].
  destruct (status r =? 200); [|done].
  unfold index_from_end, split. by rewrite split_go_plain.
Qed.

Lemma cover_url_without_slash_writes_nothing_witness :
  build_cover_img_url JNull = "None500w" ∧
  writes (retrieve_cover (build_cover_img_url JNull) (Samples.sp 50)
            (Samples.three_books "222")) = [].
Proof.
  split; [reflexivity|].
  refine (proj1 (cover_url_without_slash_writes_nothing "None500w" (Samples.sp 50)
                   (Samples.three_books "222") _)).
  vm_compute. reflexivity.
Defined.

(** ** The batch: what it writes *)

Lemma retrieve_cover_files (url : string) (params : ScraperParams) (w : world) :
  Forall (is_cover_file params) (writes (retrieve_cover url params w)).
Proof.
  rewrite retrieve_cover_cases.
  destruct (cover_get w url) as [e|r]; [by destruct e|].
  destruct (status r =? 200); [|done].
  destruct (index_from_end (split "/" url) 2) as [isbn|e]; [|done].
  cbv zeta.
  destruct (disk w (cover_img_dir params) (isbn +:+ ".jpeg"));
    destruct (body_bytes r) as [bytes|e]; try done; try destruct e; cbn;
    repeat constructor; by eexists _, _.
Qed.

Lemma page_loop_files (products : list json) (params : ScraperParams) (w : world)
    (elems : list (json * Z)) :
  Forall (is_cover_file params) (writes (page_loop products params w elems).2).
Proof.
  revert elems. induction products as [|prod rest IH]; intros elems; [done|].
  cbn [page_loop].
  destruct (extract_data prod) as [data|e]; [|done].
  destruct (dict_get data "cover_image") as [base_url|e]; [|done].
  pose proof (retrieve_cover_files (build_cover_img_url base_url) params w) as Hc.
  destruct (outcome (retrieve_cover (build_cover_img_url base_url) params w)) as [flag|];
    [|done].
  specialize (IH (elems ++ [(data, Z.b2z flag)])).
  destruct (page_loop rest params w (elems ++ [(data, Z.b2z flag)])) as [elems' tail].
  cbn in *. by apply Forall_app.
Qed.

Lemma retrieve_book_page_files (url : search_url) (params : ScraperParams) (w : world) :
  Forall (is_cover_file params) (writes (retrieve_book_page url params w)).
Proof.
  unfold retrieve_book_page.
  destruct (search_get w url) as [e|r]; [by destruct e|].
  destruct (body_json r ≫= _) as [products|e]; [|by destruct e].
  pose proof (page_loop_files products params w []) as Hl.
  destruct (page_loop products params w []) as [elems loop]. cbn in Hl.
  destruct (outcome loop) as [[]|e]; [done|]. by destruct e.
Qed.

(** X7. Whatever the network answers, a batch writes nothing but files
    named [<isbn>.jpeg] in the cover folder: it writes no page artifact,
    and a page whose request cannot connect writes nothing at all. *)
Theorem batch_writes_only_covers (urls : list search_url) (params : ScraperParams)
    (w : world) :
  Forall (is_cover_file params) (writes (main urls params w)) ∧
  Forall (λ x, ∀ p, write_key x ≠ (json_dir params, artifact_name p))
         (writes (main urls params w)) ∧
  (Forall (λ url, search_get w url = GetRaises ClientConnectorError) urls →
   writes (main urls params w) = []).
Proof.
  assert (Forall (is_cover_file params) (writes (main urls params w))) as Hfiles.
  { induction urls as [|url urls IH]; [done|].
    cbn [main]. rewrite writes_bind. apply Forall_app.
    split; [apply retrieve_book_page_files|].
    destruct (outcome (retrieve_book_page url params w)); [|done].
    rewrite writes_bind. apply Forall_app. split; [done|].
    by destruct (outcome (main urls params w)). }
  split; [done|]. split.
  - eapply Forall_impl; [exact Hfiles|].
    intros x (isbn & c & ->) p [= _ H]. by apply cover_name_not_artifact in H.
  - clear Hfiles. induction 1 as [|url urls Hurl _ IH]; [done|].
    cbn [main]. rewrite writes_bind.
    rewrite (retrieve_book_page_connector_error _ _ _ Hurl). cbn.
    rewrite writes_bind, IH. by destruct (outcome (main urls params w)).
Qed.

(** ** The page fetch and the HTTP status *)

Lemma page_loop_with_status (code : Z) (products : list json) (params : ScraperParams)
    (w : world) (elems : list (json * Z)) :
  page_loop products params (with_search_status code w) elems
  = page_loop products params w elems.
Proof.
  revert elems. induction products as [|prod rest IH]; intros elems; [done|].
  cbn [page_loop].
  destruct (extract_data prod) as [data|e]; [|done].
  destruct (dict_get data "cover_image") as [base_url|e]; [|done].
  change (retrieve_cover (build_cover_img_url base_url) params (with_search_status code w))
    with (retrieve_cover (build_cover_img_url base_url) params w).
  destruct (outcome (retrieve_cover (build_cover_img_url base_url) params w)); [|done].
  by rewrite IH.
Qed.

(** X8. The page fetch never reads the HTTP status of the search
    response: the same answers under any status give the same outcome and
    the same writes (a response with status 500 and a JSON body is a
    retrieved page). *)
Theorem page_fetch_ignores_status (code : Z) (url : search_url) (params : ScraperParams)
    (w : world) :
  retrieve_book_page url params (with_search_status code w)
  = retrieve_book_page url params w.
Proof.
  unfold retrieve_book_page. cbn [search_get with_search_status].
  destruct (search_get w url) as [e|r]; [done|]. cbn [body_json].
  destruct (body_json r ≫= _) as [products|e]; [|done].
  by rewrite page_loop_with_status.
Qed.

(** ** The serializer *)

Lemma serialize_results_step (res : list (json * Z)) (url : search_url) (ok : bool)
    (rest : list page_result) (sp : ScraperParams) (w : world) (b c : Z) :
  serialize_results ((res, url, ok) :: rest) sp w b c =
  match page_num_from_url url with
  | Raise e => IO [] (Raise e)
  | Ok page_num =>
      let name := page_num +:+ ".json" in
      let tail := serialize_results rest sp w
                    (b + Z.of_nat (length res.*1)) (c + py_sum res.*2) in
      match disk w (json_dir sp) name with
      | Accepts =>
          IO ([Store (json_dir sp) name Empty;
               Store (json_dir sp) name (Dumped (JArr res.*1))] ++ writes tail)
             (outcome tail)
      | OpenFails => IO [] (Raise OSError)
      | WriteFails n =>
          IO [Store (json_dir sp) name Empty;
              Store (json_dir sp) name (Torn (JArr res.*1) n)]
             (Raise OSError)
      end
  end.
Proof.
  destruct (page_num_from_url url) as [page_num|e] eqn:Hnum.
  - by apply serialize_results_cons.
  - cbn [serialize_results]. by rewrite Hnum.
Qed.

Lemma io_eq {A} (m m' : io A) :
  writes m = writes m' → outcome m = outcome m' → m = m'.
Proof. destruct m, m'. cbn. by intros -> ->. Qed.

Lemma serialize_results_app_bind (xs ys : list page_result) (sp : ScraperParams)
    (w : world) (b c : Z) :
  serialize_results (xs ++ ys) sp w b c
  = serialize_results xs sp w b c ≫= λ counts, serialize_results ys sp w counts.1 counts.2.
Proof.
  revert b c. induction xs as [|[[res url] ok] xs IH]; intros b c.
  { cbn. unfold mbind, io_bind. cbn. by destruct (serialize_results ys sp w b c). }
  rewrite <- app_comm_cons, !serialize_results_step.
  destruct (page_num_from_url url) as [page_num|e]; [|done]. cbv zeta.
  destruct (disk w (json_dir sp) (page_num +:+ ".json")); [|done..].
  rewrite IH. apply io_eq.
  - rewrite !writes_bind. cbn [writes outcome]. by rewrite <- app_assoc.
  - by rewrite !outcome_bind.
Qed.

(** X9. Serializing a batch in two calls, the counts of the first call
    given to the second, does what one call on the whole batch does: the
    same files written in the same order, the same counts, the same
    exception. *)
Theorem serialize_results_in_two_calls (xs ys : list page_result) (sp : ScraperParams)
    (w : world) (b c : Z) :
  serialize_results (xs ++ ys) sp w b c
  = serialize_results xs sp w b c ≫= λ counts, serialize_results ys sp w counts.1 counts.2.
Proof. apply serialize_results_app_bind. Qed.

Lemma serialize_results_counts (results : list page_result) (sp : ScraperParams)
    (w : world) (b c b' c' : Z) :
  outcome (serialize_results results sp w b c) = Ok (b', c') →
  b' = b + py_sum ((λ r, Z.of_nat (length r.1.1)) <$> results) ∧
  c' = c + py_sum ((λ r, py_sum r.1.1.*2) <$> results) ∧
  writes (serialize_results results sp w b c) = results ≫= outcome_writes sp ∧
  Forall (λ r, is_ok (page_num_from_url (url_idx r)) = true) results.
Proof.
  revert b c. induction results as [|[[res url] ok] results IH]; intros b c.
  { cbn. intros [= <- <-]. unfold py_sum. cbn.
    split; [lia|]. split; [lia|]. split; [done|constructor]. }
  rewrite serialize_results_step.
  destruct (page_num_from_url url) as [page_num|e] eqn:Hnum; [|done]. cbv zeta.
  destruct (disk w (json_dir sp) (page_num +:+ ".json")); [|done..].
  cbn [outcome writes]. intros Htail.
  apply IH in Htail as (-> & -> & -> & Hall).
  rewrite bind_cons, !fmap_cons. unfold outcome_writes at 2, py_sum.
  cbn. rewrite Hnum, length_fmap.
  split; [lia|]. split; [lia|]. split; [done|].
  constructor; [by cbn; rewrite Hnum|done].
Qed.

(** X10. When the serializer returns, the book count has grown by the
    number of records of its inputs and the cover count by the sum of their
    cover statuses; it has written, for each input in order, the page file
    named by the page number of the input's URL, each holding the records
    of that input. *)
Theorem serialize_results_adds_counts (results : list page_result) (sp : ScraperParams)
    (w : world) (b c b' c' : Z) :
  outcome (serialize_results results sp w b c) = Ok (b', c') →
  b' = b + py_sum ((λ r, Z.of_nat (length r.1.1)) <$> results) ∧
  c' = c + py_sum ((λ r, py_sum r.1.1.*2) <$> results) ∧
  writes (serialize_results results sp w b c) = results ≫= outcome_writes sp ∧
  Forall (λ r, is_ok (page_num_from_url (url_idx r)) = true) results.
Proof. apply serialize_results_counts. Qed.

Lemma serialize_results_adds_counts_witness :
  outcome (serialize_results
             [([(JStr "a", 1); (JStr "b", 0)], build_book_page_url (Samples.sp 50) 7, true)]
             (Samples.sp 50) Samples.unreachable 10 4)
  = Ok (12, 5) ∧
  12 = 10 + py_sum ((λ r : page_result, Z.of_nat (length r.1.1))
                      <$> [([(JStr "a", 1); (JStr "b", 0)],
                            build_book_page_url (Samples.sp 50) 7, true)]).
Proof.
  assert (outcome (serialize_results
             [([(JStr "a", 1); (JStr "b", 0)], build_book_page_url (Samples.sp 50) 7, true)]
             (Samples.sp 50) Samples.unreachable 10 4)
          = Ok (12, 5)) as H by (vm_compute; reflexivity).
  split; [exact H|].
  exact (proj1 (serialize_results_adds_counts _ _ _ _ _ _ _ H)).
Defined.

(** X11. The serializer never reads the success flag of an outcome:
    outcomes that agree on records and URL are serialized alike, so a
    failed outcome is written like a retrieved one. *)
Theorem serialize_results_ignores_flag (results results' : list page_result)
    (sp : ScraperParams) (w : world) (b c : Z) :
  Forall2 (λ r r', r.1 = r'.1) results results' →
  serialize_results results sp w b c = serialize_results results' sp w b c.
Proof.
  intros H. revert b c.
  induction H as [|[[res url] ok] [[res' url'] ok'] results results' Hr _ IH];
    intros b c; [done|].
  cbn in Hr. injection Hr as <- <-.
  rewrite !serialize_results_step.
  destruct (page_num_from_url url); [|done]. cbv zeta.
  destruct (disk w (json_dir sp) _); [|done..]. by rewrite IH.
Qed.

Lemma serialize_results_ignores_flag_witness :
  serialize_results [([(JStr "a", 1)], build_book_page_url (Samples.sp 50) 7, false)]
    (Samples.sp 50) Samples.unreachable 0 0
  = serialize_results [([(JStr "a", 1)], build_book_page_url (Samples.sp 50) 7, true)]
      (Samples.sp 50) Samples.unreachable 0 0.
Proof.
  apply serialize_results_ignores_flag.
  apply Forall2_cons; split; [reflexivity|apply Forall2_nil_2].
Defined.

(** X12. A page file that cannot be opened stops the serializer with
    [OSError]: the files of the outcomes before it are written, nothing is
    written for it or for the outcomes after it, and no count is
    returned. *)
Theorem serialize_results_stops_at_failure (xs ys : list page_result)
    (res : list (json * Z)) (url : search_url) (ok : bool) (page_num : string)
    (sp : ScraperParams) (w : world) (b c b1 c1 : Z) :
  outcome (serialize_results xs sp w b c) = Ok (b1, c1) →
  page_num_from_url url = Ok page_num →
  disk w (json_dir sp) (page_num +:+ ".json") = OpenFails →
  serialize_results (xs ++ (res, url, ok) :: ys) sp w b c
  = IO (xs ≫= outcome_writes sp) (Raise OSError).
Proof.
  intros Hxs Hnum Hdisk. rewrite serialize_results_app_bind.
  destruct (serialize_results_counts _ _ _ _ _ _ _ Hxs) as (_ & _ & Hw & _).
  apply io_eq.
  - rewrite writes_bind, Hxs, Hw. cbn [fst snd].
    rewrite serialize_results_step, Hnum. cbv zeta. rewrite Hdisk. cbn.
    by rewrite app_nil_r.
  - rewrite outcome_bind, Hxs. cbn [fst snd].
    rewrite serialize_results_step, Hnum. cbv zeta. by rewrite Hdisk.
Qed.

Lemma serialize_results_stops_at_failure_witness :
  serialize_results
    [([(JStr "a", 1)], build_book_page_url (Samples.sp 50) 7, true);
     ([(JStr "b", 1)], build_book_page_url (Samples.sp 50) 8, true);
     ([(JStr "c", 1)], build_book_page_url (Samples.sp 50) 9, true)]
    (Samples.sp 50) (refusing "8.json" Samples.unreachable) 0 0
  = IO [Store "data" "7.json" Empty; Store "data" "7.json" (Dumped (JArr [JStr "a"]))]
       (Raise OSError).
Proof.
  refine (serialize_results_stops_at_failure
            [([(JStr "a", 1)], build_book_page_url (Samples.sp 50) 7, true)]
            [([(JStr "c", 1)], build_book_page_url (Samples.sp 50) 9, true)]
            [(JStr "b", 1)] (build_book_page_url (Samples.sp 50) 8) true "8"
            (Samples.sp 50) (refusing "8.json" Samples.unreachable) 0 0 1 1 _ _ _);
    vm_compute; reflexivity.
Defined.

(** ** The two runs: counts and the report of missing pages *)

Lemma py_sum_flags (elems : list (json * Z)) :
  Forall (λ e, ∃ flag, e.2 = Z.b2z flag) elems →
  0 ≤ py_sum elems.*2 ≤ Z.of_nat (length elems).
Proof.
  unfold py_sum. induction 1 as [|e elems [flag He] _ IH]; cbn; [lia|].
  rewrite He. destruct flag; cbn; lia.
Qed.

Lemma py_sum_between (f g : Z → Z) (ps : list Z) :
  (∀ p, 0 ≤ f p ≤ g p) → 0 ≤ py_sum (f <$> ps) ≤ py_sum (g <$> ps).
Proof.
  intros H. unfold py_sum. induction ps as [|p ps IH]; cbn; [lia|].
  specialize (H p). lia.
Qed.

Lemma fetched_flags (sp : ScraperParams) (w : world) (p : Z) :
  0 ≤ py_sum (fetched sp w p).1.1.*2 ≤ Z.of_nat (length (fetched sp w p).1.1).
Proof.
  apply py_sum_flags. unfold fetched.
  destruct (outcome (retrieve_book_page (build_book_page_url sp p) sp w))
    as [[[res url] ok]|] eqn:Hr; [|by constructor].
  apply retrieve_book_page_returns in Hr as (_ & _ & Hall). cbn.
  eapply Forall_impl; [exact Hall|]. intros e (_ & flag & _ & _ & He). eauto.
Qed.

(** X13. When the script returns after its runs, the cover count is at
    most the book count, and neither is negative: each record adds one book
    and at most one cover. *)
Theorem cover_count_at_most_book_count (n : Z) (sp : ScraperParams) (w1 w2 : world)
    (b c : Z) (missing : list search_url) :
  outcome (two_runs n sp w1 w2) = Ok (b, c, missing) →
  0 ≤ c ≤ b.
Proof.
  intros H.
  destruct (two_runs_returns _ _ _ _ _ _ _ H) as (-> & -> & _).
  cbv zeta.
  pose proof (py_sum_between
                (λ p, py_sum (fetched sp w1 p).1.1.*2)
                (λ p, Z.of_nat (length (fetched sp w1 p).1.1))
                (seqZ 1 n) (fetched_flags sp w1)) as H1.
  pose proof (py_sum_between
                (λ p, py_sum (fetched sp w2 p).1.1.*2)
                (λ p, Z.of_nat (length (fetched sp w2 p).1.1))
                (filter (λ p, is_ok_idx (fetched sp w2 p) = true)
                   (filter (λ p, is_ok_idx (fetched sp w1 p) = false) (seqZ 1 n)))
                (fetched_flags sp w2)) as H2.
  lia.
Qed.

Lemma cover_count_at_most_book_count_witness :
  outcome (two_runs 2 (Samples.sp 50) (Samples.page_unreachable "2")
             (Samples.three_books "222")) = Ok (6, 4, []) ∧
  0 ≤ 4 ≤ 6.
Proof.
  assert (outcome (two_runs 2 (Samples.sp 50) (Samples.page_unreachable "2")
                     (Samples.three_books "222")) = Ok (6, 4, [])) as H
    by (vm_compute; reflexivity).
  split; [exact H|].
  exact (cover_count_at_most_book_count 2 (Samples.sp 50)
           (Samples.page_unreachable "2") (Samples.three_books "222") 6 4 [] H).
Defined.

Lemma build_book_page_url_inj (sp : ScraperParams) :
  Inj (=) (=) (build_book_page_url sp).
Proof. intros p q [= H]. by apply (inj pretty). Qed.

(** X14. When the script returns, the pages it reports missing are exactly
    the planned pages whose fetch failed in both runs, in ascending page
    order and each once. *)
Theorem missing_pages_failed_both_runs (n : Z) (sp : ScraperParams) (w1 w2 : world)
    (b c : Z) (missing : list search_url) :
  outcome (two_runs n sp w1 w2) = Ok (b, c, missing) →
  missing = build_book_page_url sp
              <$> filter (λ p, is_ok_idx (fetched sp w2 p) = false
                               ∧ is_ok_idx (fetched sp w1 p) = false) (seqZ 1 n) ∧
  NoDup missing.
Proof.
  intros H.
  destruct (two_runs_returns _ _ _ _ _ _ _ H) as (_ & _ & -> & _).
  cbv zeta. rewrite list_filter_filter. split; [done|].
  apply (@NoDup_fmap_2 _ _ _ (build_book_page_url_inj sp)).
  apply NoDup_filter, NoDup_seqZ.
Qed.

Lemma missing_pages_failed_both_runs_witness :
  [build_book_page_url (Samples.sp 50) 2]
  = build_book_page_url (Samples.sp 50)
      <$> filter (λ p, is_ok_idx (fetched (Samples.sp 50) (Samples.page_unreachable "2") p)
                       = false
                       ∧ is_ok_idx (fetched (Samples.sp 50) (Samples.page_unreachable "2") p)
                         = false) (seqZ 1 2).
Proof.
  refine (proj1 (missing_pages_failed_both_runs 2 (Samples.sp 50)
                   (Samples.page_unreachable "2") (Samples.page_unreachable "2")
                   3 2 [build_book_page_url (Samples.sp 50) 2] _)).
  vm_compute. reflexivity.
Defined.

Lemma filter_none (P : Z → Prop) `{!∀ p, Decision (P p)} (ps : list Z) :
  (∀ p, p ∈ ps → ¬ P p) → filter P ps = [].
Proof.
  induction ps as [|p ps IH]; intros Hno; [done|].
  rewrite filter_cons, decide_False by (apply Hno; by left).
  apply IH. intros q Hq. apply Hno. by right.
Qed.

(** X15. When every planned page is retrieved in the first run, there is no
    second run: what the script returns and writes does not depend on the
    world of the second run. *)
Theorem no_second_run_when_all_retrieved (n : Z) (sp : ScraperParams)
    (w1 w2 w2' : world) :
  (∀ p, p ∈ seqZ 1 n → is_ok_idx (fetched sp w1 p) = true) →
  two_runs n sp w1 w2 = two_runs n sp w1 w2'.
Proof.
  intros Hall. unfold two_runs. cbv zeta.
  apply io_bind_ext. intros results Hm.
  apply main_fetched in Hm as ->.
  rewrite filter_fmap_pages, fetched_urls.
  rewrite filter_none; [done|].
  intros p Hp. rewrite (Hall p Hp). done.
Qed.

Lemma no_second_run_when_all_retrieved_witness :
  two_runs 2 (Samples.sp 50) (Samples.three_books "222") Samples.unreachable
  = two_runs 2 (Samples.sp 50) (Samples.three_books "222") Samples.error_page.
Proof.
  apply no_second_run_when_all_retrieved.
  intros p Hp. apply elem_of_seqZ in Hp.
  assert (p = 1 ∨ p = 2) as [->| ->] by lia; vm_compute; reflexivity.
Defined.

(** ** The planner and the script *)



(** Beyond that range the quotient the planner rounds up is a float: a
    total of [50 * 2^48 + 1] gives [2^48] pages of 50, which hold one entry
    less, and a total of [10^400] has no float quotient. *)
Example plan_rounds_a_large_total :
  outcome (plan (Some 50) (Samples.sp 50)
             (Samples.answering (Samples.search_body (50 * 2 ^ 48 + 1) [])))
  = Ok (Some (JInt (50 * 2 ^ 48 + 1), 2 ^ 48)).
Proof. vm_compute. reflexivity. Qed.

Example plan_overflows :
  outcome (plan (Some 50) (Samples.sp 50)
             (Samples.answering (Samples.search_body (10 ^ 400) [])))
  = Raise OverflowError.
Proof. vm_compute. reflexivity. Qed.

(** X17. When the reconnaissance request cannot connect, the planner
    returns [None] without raising; the script then raises [TypeError] on
    unpacking it, before any page is requested or any file written. *)
Theorem planning_failure_ends_script (g : option Z) (params : ScraperParams)
    (root : string) (w0 w1 w2 : world) :
  (search_get w0 (build_book_page_url params 1) = GetRaises ClientConnectorError →
   plan g params w0 = IO [] (Ok None)) ∧
  (search_get w0 (build_book_page_url (script_params root) 1)
   = GetRaises ClientConnectorError →
   __main__ root w0 w1 w2 = IO [] (Raise TypeError)).
Proof.
  split.
  - intros H. unfold plan, try_except, with_get. cbv zeta. by rewrite H.
  - intros H. unfold __main__, plan, try_except, with_get. cbv zeta.
    change {| start_date := "2018-01-01"; end_date := "2023-12-31";
              entries_per_page := 50; json_dir := root +:+ "/data";
              cover_img_dir := root +:+ "/cover_images" |}
      with (script_params root).
    by rewrite H.
Qed.

Lemma planning_failure_ends_script_witness :
  __main__ "repo" Samples.unreachable Samples.unreachable Samples.unreachable
  = IO [] (Raise TypeError).
Proof.
  refine (proj2 (planning_failure_ends_script None (Samples.sp 50) "repo"
                   Samples.unreachable Samples.unreachable Samples.unreachable) _).
  reflexivity.
Defined.



(** ** The merge: which entries count *)

Lemma ordered_json_paths_filter (l1 l2 : list dir_entry) :
  filter (λ x, re_match (entry_name x) = true) l1
  = filter (λ x, re_match (entry_name x) = true) l2 →
  ordered_json_paths l1 = ordered_json_paths l2.
Proof. unfold ordered_json_paths. by intros ->. Qed.

(** X19. An entry whose name does not pass the pattern has no part in the
    merge, wherever it is listed and whatever it holds: the merged file of
    an earlier run, [dataset.json], lying in the source folder is not merged
    into itself. *)
Theorem join_skips_other_entries (l1 l2 : list dir_entry) (x : dir_entry) (w : world)
    (dest_dir dest_name : string) :
  re_match (entry_name x) = false →
  join_data_files (Ok (l1 ++ x :: l2)) w dest_dir dest_name
  = join_data_files (Ok (l1 ++ l2)) w dest_dir dest_name.
Proof.
  intros Hx. rewrite !join_data_files_cases. unfold grouped_data. cbn.
  rewrite (ordered_json_paths_filter (l1 ++ x :: l2) (l1 ++ l2)); [done|].
  rewrite !filter_app, filter_cons, decide_False; [done|].
  by rewrite Hx.
Qed.

Lemma join_skips_other_entries_witness :
  re_match "dataset.json" = false ∧
  join_data_files
    (Ok [MergeSamples.p2; {| entry_name := "dataset.json"; entry_load := Raise OSError |};
         MergeSamples.p1])
    Samples.unreachable "data" "dataset.json"
  = join_data_files (Ok [MergeSamples.p2; MergeSamples.p1])
      Samples.unreachable "data" "dataset.json".
Proof.
  split; [reflexivity|].
  refine (join_skips_other_entries [MergeSamples.p2] [MergeSamples.p1]
            {| entry_name := "dataset.json"; entry_load := Raise OSError |}
            Samples.unreachable "data" "dataset.json" _).
  reflexivity.
Defined.

Lemma keyed_raises {A} (key : A → result Z) (xs : list A) (x : A) :
  x ∈ xs → is_ok (key x) = false → is_ok (keyed key xs) = false.
Proof.
  induction 1 as [x xs|x y xs Hin IH]; intros Hx; cbn.
  - by destruct (key x).
  - destruct (key y); [|done]. cbn. specialize (IH Hx).
    by destruct (keyed key xs).
Qed.

(** X20. One entry that passes the pattern and whose name, [.json] taken
    out, is not a number makes the whole merge fail: it returns [False] and
    writes nothing ([1.json.bak] is such a name, the pattern being matched
    at the start of the name only). *)
Theorem join_fails_on_unreadable_name (listing : list dir_entry) (x : dir_entry)
    (w : world) (dest_dir dest_name : string) :
  x ∈ listing →
  re_match (entry_name x) = true →
  is_ok (fname_to_int (entry_name x)) = false →
  join_data_files (Ok listing) w dest_dir dest_name = IO [] (Ok false).
Proof.
  intros Hin Hm Hint. rewrite join_data_files_cases.
  assert (is_ok (grouped_data (Ok listing)) = false) as Hg.
  { unfold grouped_data, ordered_json_paths, py_sorted. cbn.
    pose proof (keyed_raises (λ y, fname_to_int (entry_name y))
                  (filter (λ y, re_match (entry_name y) = true) listing) x) as Hk.
    destruct (keyed _ _); [|done].
    discriminate Hk; [by apply list_elem_of_filter|done]. }
  by destruct (grouped_data (Ok listing)).
Qed.

Lemma join_fails_on_unreadable_name_witness :
  join_data_files
    (Ok [MergeSamples.p1; page_file "1.json.bak" [JStr "a copy"]; MergeSamples.p2])
    Samples.unreachable "data" "dataset.json"
  = IO [] (Ok false).
Proof.
  refine (join_fails_on_unreadable_name _ (page_file "1.json.bak" [JStr "a copy"])
            Samples.unreachable "data" "dataset.json" _ _ _).
  - apply list_elem_of_further, list_elem_of_here.
  - reflexivity.
  - reflexivity.
Defined.

(** ** The merge: independent of the listing order *)

Lemma keyed_all_ok {A} (key : A → result Z) (xs : list A) :
  Forall (λ x, is_ok (key x) = true) xs →
  keyed key xs
  = Ok ((λ x, (match key x with Ok z => z | Raise _ => 0 end, x)) <$> xs).
Proof.
  induction 1 as [|x xs Hx _ IH]; [done|].
  cbn. rewrite IH. by destruct (key x).
Qed.

Lemma sorted_strict {A} (ks : list (Z * A)) :
  StronglySorted key_le ks → NoDup ks.*1 → StronglySorted key_lt ks.
Proof.
  induction 1 as [|p ks _ IH Hp]; intros Hnd; [constructor|].
  rewrite fmap_cons in Hnd. apply NoDup_cons in Hnd as [Hnotin Hnd].
  constructor; [by apply IH|].
  apply Forall_forall. intros q Hq.
  rewrite Forall_forall in Hp. specialize (Hp q Hq).
  assert (p.1 ≠ q.1).
  { intros Heq. apply Hnotin. rewrite Heq. by apply list_elem_of_fmap_2. }
  unfold key_le, key_lt in *. lia.
Qed.

Lemma py_sorted_any_order {A} (key : A → result Z) (xs xs' : list A) :
  Forall (λ x, is_ok (key x) = true) xs →
  NoDup (key <$> xs) →
  xs ≡ₚ xs' →
  py_sorted key xs = py_sorted key xs'.
Proof.
  intros Hok Hnd Hperm.
  assert (Forall (λ x, is_ok (key x) = true) xs') as Hok' by by rewrite <- Hperm.
  unfold py_sorted. rewrite !keyed_all_ok by done. cbn. do 2 f_equal.
  set (kz := λ x, (match key x with Ok z => z | Raise _ => 0 end, x)).
  assert (NoDup (kz <$> xs).*1) as Hnd1.
  { rewrite <- list_fmap_compose.
    assert (key <$> xs = Ok <$> ((fst ∘ kz) <$> xs)) as Heq.
    { rewrite <- list_fmap_compose. apply list_fmap_ext. intros i x Hi.
      rewrite Forall_forall in Hok.
      specialize (Hok x (list_elem_of_lookup_2 _ _ _ Hi)).
      unfold kz. cbn. by destruct (key x). }
    rewrite Heq in Hnd. by apply (NoDup_fmap_1 Ok). }
  apply (StronglySorted_unique_strong key_lt).
  - unfold key_lt. intros; lia.
  - apply sorted_strict; [apply sort_by_key_sorted|].
    by rewrite sort_by_key_perm.
  - apply sorted_strict; [apply sort_by_key_sorted|].
    rewrite sort_by_key_perm. by rewrite <- Hperm.
  - rewrite !sort_by_key_perm. by rewrite Hperm.
Qed.

(** X21. When the names that pass the pattern parse to numbers that are
    all different, the merge does not depend on the order in which the
    folder is listed: two listings of the same entries give the same merged
    file and the same answer. *)
Theorem join_any_listing_order (listing listing' : list dir_entry) (w : world)
    (dest_dir dest_name : string) :
  listing ≡ₚ listing' →
  Forall (λ x, re_match (entry_name x) = true →
               is_ok (fname_to_int (entry_name x)) = true) listing →
  NoDup (page_ids (filter (λ x, re_match (entry_name x) = true) listing)) →
  join_data_files (Ok listing) w dest_dir dest_name
  = join_data_files (Ok listing') w dest_dir dest_name.
Proof.
  intros Hperm Hok Hnd. rewrite !join_data_files_cases.
  unfold grouped_data, ordered_json_paths. cbn.
  rewrite (py_sorted_any_order _ _
             (filter (λ x, re_match (entry_name x) = true) listing')); [done| |done|].
  - apply Forall_forall. intros x [Hm Hin]%list_elem_of_filter.
    rewrite Forall_forall in Hok. by apply Hok.
  - by rewrite Hperm.
Qed.

Lemma join_any_listing_order_witness :
  join_data_files (Ok [MergeSamples.p2; MergeSamples.p10; MergeSamples.p1])
    Samples.unreachable "data" "dataset.json"
  = join_data_files (Ok [MergeSamples.p1; MergeSamples.p2; MergeSamples.p10])
      Samples.unreachable "data" "dataset.json".
Proof.
  refine (join_any_listing_order _ _ Samples.unreachable "data" "dataset.json" _ _ _).
  - etrans; [apply Permutation_swap|]. etrans; [apply perm_skip, Permutation_swap|].
    etrans; [apply Permutation_swap|]. apply perm_skip, Permutation_swap.
  - repeat (apply Forall_cons; split; [intros _; reflexivity|]). apply Forall_nil_2.
  - vm_compute.
    repeat (apply NoDup_cons; split;
            [intros Hin;
             repeat (apply elem_of_cons in Hin as [Hin|Hin]; [discriminate Hin|]);
             by apply elem_of_nil in Hin|]).
    apply NoDup_nil_2.
Defined.

(** ** From the serializer to the merge: page file names *)

Lemma append_cons (c : ascii) (s t : string) : String c s +:+ t = String c (s +:+ t).
Proof. reflexivity. Qed.

Lemma append_empty_r (s : string) : s +:+ "" = s.
Proof. induction s as [|c s IH]; [done|]. by rewrite append_cons, IH. Qed.

Lemma pretty_N_char_digit (n : N) : is_digit (pretty_N_char n) = true.
Proof. unfold pretty_N_char. by repeat case_match. Qed.

Lemma pretty_N_go_digits (x : N) (tail : list ascii) :
  ∃ ds, Forall (λ c, is_digit c = true) ds ∧
        pretty_N_go x (String.string_of_list_ascii tail)
        = String.string_of_list_ascii (ds ++ tail).
Proof.
  revert tail. induction (N.lt_wf_0 x) as [x _ IH]; intros tail.
  assert (x = 0 ∨ 0 < x)%N as [->|Hpos] by lia.
  { exists []. split; [constructor|]. by rewrite pretty_N_go_0. }
  rewrite pretty_N_go_step by done.
  destruct (IH (x `div` 10)%N (N.div_lt x 10 Hpos eq_refl)
              (pretty_N_char (x `mod` 10) :: tail)) as (ds & Hds & Heq).
  exists (ds ++ [pretty_N_char (x `mod` 10)]). split.
  - apply Forall_app. split; [done|]. repeat constructor. apply pretty_N_char_digit.
  - change (String.string_of_list_ascii (pretty_N_char (x `mod` 10) :: tail))
      with (String (pretty_N_char (x `mod` 10)) (String.string_of_list_ascii tail))
      in Heq.
    rewrite Heq. by rewrite <- app_assoc.
Qed.

Lemma four_digit_quotients (x : N) :
  (1000 ≤ x)%N →
  (0 < x ∧ 0 < x `div` 10 ∧ 0 < (x `div` 10) `div` 10
   ∧ 0 < ((x `div` 10) `div` 10) `div` 10)%N.
Proof.
  intros Hx.
  assert (100 ≤ x `div` 10)%N as H2 by (apply N.div_le_lower_bound; lia).
  assert (10 ≤ (x `div` 10) `div` 10)%N as H3 by (apply N.div_le_lower_bound; lia).
  assert (1 ≤ ((x `div` 10) `div` 10) `div` 10)%N as H4
    by (apply N.div_le_lower_bound; lia).
  lia.
Qed.

Lemma pretty_page_digits (p : Z) :
  1000 ≤ p →
  ∃ ds, Forall (λ c, is_digit c = true) ds ∧ (4 ≤ length ds)%nat ∧
        pretty p = String.string_of_list_ascii ds.
Proof.
  destruct p as [|x|x]; try lia. intros Hp.
  unfold pretty, pretty_Z, pretty, pretty_positive, pretty, pretty_N.
  case_decide; [done|].
  destruct (four_digit_quotients (N.pos x)) as (H1 & H2 & H3 & H4); [lia|].
  rewrite (pretty_N_go_step (N.pos x)) by done.
  rewrite (pretty_N_go_step (N.pos x `div` 10)) by done.
  rewrite (pretty_N_go_step ((N.pos x `div` 10) `div` 10)) by done.
  rewrite (pretty_N_go_step (((N.pos x `div` 10) `div` 10) `div` 10)) by done.
  set (c0 := pretty_N_char (N.pos x `mod` 10)).
  set (c1 := pretty_N_char ((N.pos x `div` 10) `mod` 10)).
  set (c2 := pretty_N_char (((N.pos x `div` 10) `div` 10) `mod` 10)).
  set (c3 := pretty_N_char ((((N.pos x `div` 10) `div` 10) `div` 10) `mod` 10)).
  destruct (pretty_N_go_digits ((((N.pos x `div` 10) `div` 10) `div` 10) `div` 10)
              [c3; c2; c1; c0]) as (ds & Hds & Heq).
  exists (ds ++ [c3; c2; c1; c0]). split; [|split].
  - apply Forall_app. split; [done|].
    repeat constructor; apply pretty_N_char_digit.
  - rewrite length_app. cbn. lia.
  - exact Heq.
Qed.

Lemma prefix_json_digit (c : ascii) (s : string) :
  is_digit c = true → String.prefix "json" (String c s) = false.
Proof.
  intros Hc.
  destruct (digit_cases c Hc) as [?|[?|[?|[?|[?|[?|[?|[?|[?|?]]]]]]]]]; by subst.
Qed.

Lemma re_match_four_digits (ds : list ascii) :
  Forall (λ c, is_digit c = true) ds → (4 ≤ length ds)%nat →
  re_match (String.string_of_list_ascii ds +:+ ".json") = false.
Proof.
  intros Hds Hlen.
  destruct ds as [|d1 [|d2 [|d3 [|d4 ds]]]]; cbn in Hlen; try lia.
  apply Forall_cons in Hds as [H1 Hds]. apply Forall_cons in Hds as [H2 Hds].
  apply Forall_cons in Hds as [H3 Hds]. apply Forall_cons in Hds as [H4 Hds].
  cbn [String.string_of_list_ascii]. rewrite !append_cons.
  unfold re_match, re_tail. rewrite H1, H2, H3.
  rewrite (prefix_json_digit d3), (prefix_json_digit d4) by done.
  assert (String.prefix "json" (String.string_of_list_ascii ds +:+ ".json") = false)
    as ->.
  { destruct ds as [|d5 ds]; [done|].
    apply Forall_cons in Hds as [H5 _].
    cbn [String.string_of_list_ascii]. rewrite append_cons.
    by apply prefix_json_digit. }
  by rewrite !andb_false_r.
Qed.

Lemma pages_below_1000_found : forallb found_by_merge (seqZ 0 1000) = true.
Proof. vm_compute. reflexivity. Qed.

(** X22. The file the serializer names for page [p] is taken by the merge,
    which reads [p] back from the name, for every [p] from 0 to 999; from
    page 1000 on the name does not pass the pattern of the merge, so such a
    page is left out of the merged file. *)
Theorem merge_finds_pages_below_1000 (p : Z) :
  (0 ≤ p ≤ 999 →
   re_match (artifact_name p) = true ∧ fname_to_int (artifact_name p) = Ok p) ∧
  (1000 ≤ p → re_match (artifact_name p) = false).
Proof.
  split.
  - intros Hp.
    pose proof pages_below_1000_found as Hall. rewrite forallb_forall in Hall.
    specialize (Hall p). unfold found_by_merge in Hall.
    apply andb_prop in Hall as [Hm Hint].
    2:{ apply list_elem_of_In, elem_of_seqZ. lia. }
    split; [done|].
    destruct (fname_to_int (artifact_name p)) as [z|]; [|done].
    apply Z.eqb_eq in Hint. by subst.
  - intros Hp. destruct (pretty_page_digits p Hp) as (ds & Hds & Hlen & Heq).
    unfold artifact_name. rewrite Heq. by apply re_match_four_digits.
Qed.

Lemma merge_finds_pages_below_1000_witness :
  (re_match (artifact_name 111) = true ∧ fname_to_int (artifact_name 111) = Ok 111) ∧
  re_match (artifact_name 1000) = false.
Proof.
  split.
  - refine (proj1 (merge_finds_pages_below_1000 111) _). lia.
  - refine (proj2 (merge_finds_pages_below_1000 1000) _). lia.
Defined.

(** ** The semaphore: what the nested slots cost *)

Section limiter_more.
Import Limiter.

(** X23. A cover is fetched inside the slot of its page and inside a slot
    of its own: in every state a batch can reach, twice the number of
    covers being fetched is at most [K]; under a limiter of size 1 no cover
    is ever fetched. *)
Theorem covers_use_two_slots (K n : nat) (s : state) :
  reachable K n s →
  (2 * covers_in_flight s ≤ K)%nat ∧
  ((K ≤ 1)%nat → Forall (λ t, holds_cover_slot t = false) (tasks s)).
Proof.
  intros Hr. pose proof (reachable_conserves _ _ _ Hr) as Hk.
  pose proof (covers_le_slots s) as Hc.
  split; [lia|]. intros HK.
  assert (covers_in_flight s = 0)%nat as H0 by lia.
  unfold covers_in_flight in H0. clear -H0.
  induction (tasks s) as [|t l IH]; [constructor|].
  cbn in H0. constructor; [|apply IH; lia].
  destruct (holds_cover_slot t); [cbn in H0; lia|done].
Qed.

Lemma covers_use_two_slots_witness :
  (2 * covers_in_flight (State 248 [CoverRequest 0]) ≤ 250)%nat.
Proof.
  refine (proj1 (covers_use_two_slots 250 1 (State 248 [CoverRequest 0]) _)).
  apply reachable_cover_request.
Defined.

Lemma replicate_snoc (j : nat) (t : task) (l : list task) :
  replicate j t ++ t :: l = replicate (S j) t ++ l.
Proof. induction j as [|j IH]; [done|]. cbn. by rewrite IH. Qed.

Lemma pages_fill_slots (v j m : nat) :
  rtc step (State v (replicate j (Loop 1) ++ replicate (v + m) Idle))
           (State 0 (replicate (j + v) (Loop 1) ++ replicate m Idle)).
Proof.
  revert j. induction v as [|v IH]; intros j.
  { rewrite Nat.add_0_r. apply rtc_refl. }
  cbn [Nat.add replicate].
  eapply rtc_l.
  { refine (step_task _ _ _ _ (replicate j (Loop 1)) (replicate (v + m) Idle)
              (acquire_page v)). }
  eapply rtc_l.
  { refine (step_task _ _ _ _ (replicate j (Loop 1)) (replicate (v + m) Idle)
              (page_response v 1)). }
  rewrite replicate_snoc. replace (j + S v)%nat with (S j + v)%nat by lia.
  apply IH.
Qed.

(** X24. With at least [K] pages in a batch under a limiter of size [K],
    the batch can reach the state where every slot is held by a page that
    waits, inside its slot, for a second slot to fetch its first cover. In
    that state no request can start: the only step left to any task is to
    leave its slot by raising. *)
Theorem pages_can_take_every_slot (K m : nat) :
  reachable K (K + m) (all_pages_waiting K m) ∧
  ∀ s', step (all_pages_waiting K m) s' →
        value s' = 1%nat ∧ requests_in_flight s' = 0%nat ∧
        ∃ before after, tasks s' = before ++ Done :: after.
Proof.
  split.
  - unfold reachable, init, all_pages_waiting.
    apply (pages_fill_slots K 0 m).
  - unfold all_pages_waiting. intros s' Hstep.
    remember (State 0 (replicate K (Loop 1) ++ replicate m Idle)) as s eqn:Hs.
    destruct Hstep as [v v' t t' before after Ht]. injection Hs as -> H1.
    assert (t = Loop 1 ∨ t = Idle) as Hcase.
    { assert (t ∈ replicate K (Loop 1) ++ replicate m Idle) as Hin.
      { rewrite <- H1. apply elem_of_app. right. by left. }
      apply elem_of_app in Hin as [Hin|Hin];
        apply elem_of_replicate in Hin as [-> _]; auto. }
    assert (Forall (λ t, in_flight t = 0%nat) (before ++ after)) as Hquiet.
    { assert (Forall (λ t, in_flight t = 0%nat) (before ++ t :: after)) as Hall.
      { rewrite H1. apply Forall_app. split; apply Forall_replicate; done. }
      apply Forall_app in Hall as [Hb Ha]. apply Forall_cons in Ha as [_ Ha].
      by apply Forall_app. }
    destruct Hcase as [-> | ->]; inversion Ht; subst.
    cbn. split; [done|]. split; [|eauto].
    unfold requests_in_flight. cbn. rewrite sum_list_with_app. cbn.
    apply Forall_app in Hquiet as [Hb Ha].
    assert (∀ l, Forall (λ t, in_flight t = 0%nat) l → sum_list_with in_flight l = 0%nat)
      as Hsum.
    { induction 1 as [|x l Hx _ IHl]; cbn; [done|]. lia. }
    rewrite (Hsum _ Hb), (Hsum _ Ha). done.
Qed.

End limiter_more.

(** ** The merge: a page file that cannot be used *)

Lemma keyed_entries {A} (key : A → result Z) (xs : list A) (ks : list (Z * A)) :
  keyed key xs = Ok ks → ks.*2 = xs.
Proof.
  revert ks. induction xs as [|x xs IH]; intros ks; cbn.
  { by intros [= <-]. }
  destruct (key x) as [k|]; [|done]. cbn.
  destruct (keyed key xs) as [ks'|]; [|done]. cbn.
  intros [= <-]. cbn. by rewrite (IH ks').
Qed.

Lemma load_all_raises (paths : list dir_entry) (acc : list json) (x : dir_entry) :
  x ∈ paths → is_ok (entry_load x ≫= py_iter) = false →
  is_ok (load_all paths acc) = false.
Proof.
  intros Hin Hx. revert acc.
  induction Hin as [x paths|x y paths Hin IH]; intros acc; cbn.
  - destruct (entry_load x) as [v|]; [|done]. cbn in *.
    by destruct (py_iter v).
  - destruct (entry_load y) as [v|]; [|done]. cbn.
    destruct (py_iter v); [|done]. cbn. by apply IH.
Qed.

(** X25. One page file that cannot be opened, or does not hold JSON, or
    holds JSON that cannot be iterated (a number, a boolean, [null]) makes
    the whole merge fail: it returns [False] and writes nothing, whatever
    the other page files hold. *)
Theorem join_fails_on_unusable_page_file (listing : list dir_entry) (x : dir_entry)
    (w : world) (dest_dir dest_name : string) :
  x ∈ listing →
  re_match (entry_name x) = true →
  is_ok (entry_load x ≫= py_iter) = false →
  join_data_files (Ok listing) w dest_dir dest_name = IO [] (Ok false).
Proof.
  intros Hin Hm Hx. rewrite join_data_files_cases.
  assert (is_ok (grouped_data (Ok listing)) = false) as Hg.
  { unfold grouped_data, ordered_json_paths, py_sorted. cbn.
    destruct (keyed (λ y, fname_to_int (entry_name y))
                (filter (λ y, re_match (entry_name y) = true) listing))
      as [ks|] eqn:Hks; [|done].
    cbn. apply (load_all_raises _ _ x); [|done].
    apply keyed_entries in Hks.
    rewrite sort_by_key_perm, Hks. by apply list_elem_of_filter. }
  by destruct (grouped_data (Ok listing)).
Qed.

Lemma join_fails_on_unusable_page_file_witness :
  join_data_files
    (Ok [MergeSamples.p1; {| entry_name := "2.json"; entry_load := Ok (JInt 7) |};
         MergeSamples.p10])
    Samples.unreachable "data" "dataset.json"
  = IO [] (Ok false).
Proof.
  refine (join_fails_on_unusable_page_file _
            {| entry_name := "2.json"; entry_load := Ok (JInt 7) |}
            Samples.unreachable "data" "dataset.json" _ _ _).
  - apply list_elem_of_further, list_elem_of_here.
  - reflexivity.
  - reflexivity.
Defined.

(** ** The first run: one page that raises *)


